(** * GetToThePoint: the audio transcription pipeline of [main.py]

    A shallow embedding of [transcribe_audio] (main.py, lines 76-110) and of
    the effects it has on its surroundings: the scratch files it writes and
    removes, the requests it sends to the speech recogniser, the lines it
    prints and the time it sleeps.  The recogniser and the silence splitter
    are libraries the program only calls; they are parameters here.

    The second part embeds the rest of the program: [extract_video_id],
    [get_youtube_transcript], [summarize_text], [extract_text_from_docx]
    and the handler of the form, [summarize]. *)

From stdpp Require Import gmap strings list fin_maps pretty.
From Stdlib Require Import Ascii.

Local Open Scope string_scope.
Local Open Scope list_scope.

(** ** Data *)

(** A [pydub.AudioSegment], one entry per millisecond of sound. *)
Definition AudioSegment : Type := list Z.

(** The Python exceptions that can travel through [transcribe_audio].
    [sr.UnknownValueError] and [sr.RequestError] are the two classes the
    retry loop names in its [except] clauses; [OtherError] stands for an
    exception of any other class. *)
Inductive exn : Type :=
| UnknownValueError
| RequestError (msg : string)
| ValueError (msg : string)
| FileNotFoundError (path : string)
| OtherError (cls : string).

(** A call either returns a value or raises. *)
Inductive result (A : Type) : Type :=
| Ok (a : A)
| Raised (e : exn).
Arguments Ok {A} a.
Arguments Raised {A} e.

(** What the program does to the outside, in the order it does it. *)
Inductive event : Type :=
| Export (path : string) (chunk : AudioSegment)
| Recognize (audio_data : AudioSegment)
| Stdout (line : string)
| Sleep (seconds : Z)
| Remove (path : string).

(** The surroundings: the files on disk, the number of recognition requests
    the remote service has received so far, and the log of events. *)
Record world : Type := World {
  fs : gmap string AudioSegment;
  calls : nat;
  trace : list event
}.

(** [for ... : ... break]: how an iteration of the retry loop ends. *)
Inductive control : Type := Break | Continue.

(** ** A state and exception monad *)

Definition M (A : Type) : Type := world -> result A * world.

Definition ret {A : Type} (a : A) : M A := fun w => (Ok a, w).

Definition raise {A : Type} (e : exn) : M A := fun w => (Raised e, w).

Definition bind {A B : Type} (c : M A) (k : A -> M B) : M B :=
  fun w =>
    match c w with
    | (Ok a, w') => k a w'
    | (Raised e, w') => (Raised e, w')
    end.

Notation "x <- c1 ;; c2" := (bind c1 (fun x => c2))
  (at level 100, c1 at next level, right associativity).
Notation "c1 ;; c2" := (bind c1 (fun _ => c2))
  (at level 100, right associativity).

(** [try: body except ...]: [handler] returns [None] for an exception no
    [except] clause matches, which then propagates. *)
Definition try_except {A : Type} (body : M A) (handler : exn -> option (M A)) : M A :=
  fun w =>
    match body w with
    | (Ok a, w') => (Ok a, w')
    | (Raised e, w') =>
        match handler e with
        | Some h => h w'
        | None => (Raised e, w')
        end
    end.

Definition log (e : event) : M unit :=
  fun w => (Ok tt, World (fs w) (calls w) (trace w ++ [e])).

(** ** Strings *)

(** Python's [needle in haystack] on [str]. *)
Fixpoint contains (needle haystack : string) : bool :=
  if String.prefix needle haystack then true
  else match haystack with
       | EmptyString => false
       | String _ rest => contains needle rest
       end.

(** [range(n)]: empty when [n <= 0]. *)
Definition range (n : Z) : list nat := seq 0%nat (Z.to_nat n).

(** ** Library calls and system calls *)

(** [AudioSegment.from_file(path)] *)
Definition from_file (path : string) : M AudioSegment :=
  fun w =>
    match fs w !! path with
    | Some audio => (Ok audio, w)
    | None => (Raised (FileNotFoundError path), w)
    end.

(** [chunk.export(path, format="wav")] *)
Definition export (path : string) (chunk : AudioSegment) : M unit :=
  fun w => (Ok tt, World (<[path := chunk]> (fs w)) (calls w) (trace w ++ [Export path chunk])).

(** [with sr.AudioFile(path) as source: recognizer.record(source)] *)
Definition record (path : string) : M AudioSegment :=
  fun w =>
    match fs w !! path with
    | Some audio_data => (Ok audio_data, w)
    | None => (Raised (FileNotFoundError path), w)
    end.

(** [print(line)] *)
Definition print (line : string) : M unit := log (Stdout line).

(** The longest whole number of seconds [time.sleep] takes: it keeps the
    length as a signed 64-bit count of nanoseconds. *)
Definition sleep_limit : Z := 9223372036.

(** [time.sleep(seconds)], for a whole number of seconds: a length whose
    nanoseconds do not fit is an [OverflowError], a negative length that
    fits is a [ValueError]. *)
Definition sleep (seconds : Z) : M unit :=
  if ((seconds <? - sleep_limit) || (sleep_limit <? seconds))%Z
  then raise (OtherError "OverflowError")
  else if (seconds <? 0)%Z
       then raise (ValueError "sleep length must be non-negative")
       else log (Sleep seconds).

(** [os.remove(path)] *)
Definition os_remove (path : string) : M unit :=
  fun w =>
    match fs w !! path with
    | Some _ => (Ok tt, World (delete path (fs w)) (calls w) (trace w ++ [Remove path]))
    | None => (Raised (FileNotFoundError path), w)
    end.

Section Transcriber.

(** [pydub.silence.split_on_silence(audio, min_silence_len, silence_thresh)] *)
Variable split_on_silence : AudioSegment -> Z -> Z -> list AudioSegment.

(** The remote recogniser: its answer to the [k]-th request it receives,
    as [recognize_google] hands it on (the text, or the exception). *)
Variable remote : nat -> AudioSegment -> result string.

(** [recognizer.recognize_google(audio_data)] *)
Definition recognize_google (audio_data : AudioSegment) : M string :=
  fun w =>
    (remote (calls w) audio_data,
     World (fs w) (S (calls w)) (trace w ++ [Recognize audio_data])).

(** The line printed before a retry (main.py, line 102). *)
Definition retry_message (attempt : nat) (retry_delay : Z) : string :=
  "Retry attempt " +:+ pretty (attempt + 1)%nat +:+ " failed. Retrying in "
    +:+ pretty retry_delay +:+ " seconds.".

(** The body of [for attempt in range(max_retries)] (lines 93-106). *)
Definition attempt_body (retry_delay : Z) (audio_data : AudioSegment)
    (attempt : nat) (transcript : string) : M (string * control) :=
  try_except
    (chunk_transcript <- recognize_google audio_data ;;
     ret (transcript +:+ " " +:+ chunk_transcript, Break))
    (fun e =>
       match e with
       | UnknownValueError =>
           Some (ret (transcript +:+ " [Could not understand audio chunk] ", Break))
       | RequestError msg =>
           Some (if contains "Broken pipe" msg
                 then print (retry_message attempt retry_delay) ;;
                      sleep retry_delay ;;
                      ret (transcript, Continue)
                 else ret (transcript +:+ " [Could not transcribe audio chunk: "
                             +:+ msg +:+ "] ", Break))
       | _ => None
       end).

(** The retry loop (line 92), over the attempts still to make. *)
Fixpoint retry_loop (retry_delay : Z) (audio_data : AudioSegment)
    (attempts : list nat) (transcript : string) : M string :=
  match attempts with
  | [] => ret transcript
  | attempt :: rest =>
      r <- attempt_body retry_delay audio_data attempt transcript ;;
      match snd r with
      | Break => ret (fst r)
      | Continue => retry_loop retry_delay audio_data rest (fst r)
      end
  end.

(** [f"temp_chunk_{i}.wav"] *)
Definition temp_chunk_file (i : nat) : string :=
  "temp_chunk_" +:+ pretty i +:+ ".wav".

(** The body of [for i, chunk in enumerate(chunks)] (lines 85-108). *)
Definition process_chunk (max_retries retry_delay : Z) (i : nat)
    (chunk : AudioSegment) (transcript : string) : M string :=
  export (temp_chunk_file i) chunk ;;
  audio_data <- record (temp_chunk_file i) ;;
  transcript' <- retry_loop retry_delay audio_data (range max_retries) transcript ;;
  os_remove (temp_chunk_file i) ;;
  ret transcript'.

(** The loop over the chunks, from index [i] on (line 84). *)
Fixpoint for_chunks (max_retries retry_delay : Z) (i : nat)
    (chunks : list AudioSegment) (transcript : string) : M string :=
  match chunks with
  | [] => ret transcript
  | chunk :: rest =>
      transcript' <- process_chunk max_retries retry_delay i chunk transcript ;;
      for_chunks max_retries retry_delay (S i) rest transcript'
  end.

(** [transcribe_audio(audio_file, max_retries=3, retry_delay=5)] *)
Definition transcribe_audio (audio_file : string) (max_retries retry_delay : Z) : M string :=
  audio <- from_file audio_file ;;
  for_chunks max_retries retry_delay 0%nat
    (split_on_silence audio 500%Z (-40)%Z) "".

End Transcriber.

(** ** Reading a log *)

Definition is_recognize (e : event) : bool :=
  match e with Recognize _ => true | _ => false end.

Definition is_sleep (e : event) : bool :=
  match e with Sleep _ => true | _ => false end.

(** The number of recognition attempts and of sleeps in a log. *)
Definition attempts_in (evs : list event) : nat := length (List.filter is_recognize evs).
Definition sleeps_in (evs : list event) : nat := length (List.filter is_sleep evs).

(** ** The segmenter *)

Module Segmenter.
Section Detector.

(** The silence detector: the gaps [(start, end)] it finds, in
    milliseconds and in order, for a minimum length and a threshold. *)
Variable detect_silence : AudioSegment -> Z -> Z -> list (nat * nat).

(** Modelled from the spec: part of the segmenter, whose body is not among
    the sources.  The stretches of audio left between the gaps, from [pos]
    on. *)
Fixpoint runs_between (len pos : nat) (gaps : list (nat * nat)) : list (nat * nat) :=
  match gaps with
  | [] => [(pos, len)]
  | (start, stop) :: rest => (pos, start) :: runs_between len stop rest
  end.

(** Modelled from the spec: part of the segmenter.  A chunk is a slice of
    the audio stream, [audio[start:stop]]. *)
Definition slice (audio : AudioSegment) (r : nat * nat) : AudioSegment :=
  take (snd r - fst r) (drop (fst r) audio).

(** Modelled from the spec: part of the segmenter.  The maximal runs of
    audio bounded by the gaps: the whole stream when there is no gap, else
    the non-empty stretches between the gaps (a uniformly silent stream has
    none). *)
Definition detect_nonsilent (audio : AudioSegment) (gaps : list (nat * nat)) : list (nat * nat) :=
  match gaps with
  | [] => runs_between (length audio) 0 []
  | _ => filter (fun r => fst r < snd r)%nat (runs_between (length audio) 0 gaps)
  end.

(** Modelled from the spec: [split_on_silence] is imported from
    [pydub.silence] (main.py, line 8) and only called at line 81; its
    body is not among the sources.  Section 4.1 of the specification:
    the chunks are, in order, the maximal runs of audio bounded by the
    detected silence gaps.  The detector itself (which compares
    loudness in dBFS) stays a parameter. *)
Definition split_on_silence (audio : AudioSegment) (min_silence_len silence_thresh : Z)
    : list AudioSegment :=
  slice audio <$>
    detect_nonsilent audio (detect_silence audio min_silence_len silence_thresh).

End Detector.
End Segmenter.

(** ** Sample surroundings *)

(** A disk holding the uploaded recording, a service that has not been
    called yet, an empty log. *)
Definition disk0 : world :=
  World {[ "temp_audio.wav" := [3; -2; 7]%Z ]} 0 [].

(** A splitter that finds no silence, and one that cuts after every sample. *)
Definition whole_stream (audio : AudioSegment) (_ _ : Z) : list AudioSegment := [audio].
Definition every_sample (audio : AudioSegment) (_ _ : Z) : list AudioSegment :=
  (fun x => [x]) <$> audio.

(** Services: one whose connection always breaks, one that understands
    nothing, one that refuses the request, one whose connection is reset
    while the answer is read, and one that answers the three requests of
    the scenario of section 8. *)
Definition broken_remote (_ : nat) (_ : AudioSegment) : result string :=
  Raised (RequestError "recognition connection failed: [Errno 32] Broken pipe").
Definition deaf_remote (_ : nat) (_ : AudioSegment) : result string :=
  Raised UnknownValueError.
Definition refusing_remote (_ : nat) (_ : AudioSegment) : result string :=
  Raised (RequestError "recognition request failed: Forbidden").
Definition scenario_remote (k : nat) (_ : AudioSegment) : result string :=
  match k with
  | 0 => Ok "hello"
  | 1 => Raised UnknownValueError
  | _ => Ok "world"
  end.
Definition no_silence (_ : AudioSegment) (_ _ : Z) : list (nat * nat) := [].

(** ** Vocabulary of the statements *)

(** A broken-pipe transport error: a [RequestError] whose message contains
    ["Broken pipe"] (the test of line 101). *)
Definition is_broken_pipe (r : result string) : bool :=
  match r with
  | Raised (RequestError msg) => contains "Broken pipe" msg
  | _ => false
  end.

(** The exception [time.sleep] raises for a length, if it raises. *)
Definition sleep_error (seconds : Z) : option exn :=
  if ((seconds <? - sleep_limit) || (sleep_limit <? seconds))%Z
  then Some (OtherError "OverflowError")
  else if (seconds <? 0)%Z
       then Some (ValueError "sleep length must be non-negative")
       else None.

(** The outcomes the retry loop has a branch for: a text, or one of the two
    exception classes of its [except] clauses. *)
Definition handled (r : result string) : bool :=
  match r with
  | Ok _ | Raised UnknownValueError | Raised (RequestError _) => true
  | Raised _ => false
  end.

(** What a chunk's retry loop logs when every attempt in [attempts] ends in
    a broken pipe. *)
Definition retry_events (retry_delay : Z) (audio_data : AudioSegment)
    (attempts : list nat) : list event :=
  flat_map
    (fun attempt =>
       [Recognize audio_data; Stdout (retry_message attempt retry_delay); Sleep retry_delay])
    attempts.

(** What the loop over the chunks logs when it makes no attempt at all. *)
Fixpoint scratch_events (i : nat) (chunks : list AudioSegment) : list event :=
  match chunks with
  | [] => []
  | chunk :: rest =>
      Export (temp_chunk_file i) chunk :: Remove (temp_chunk_file i)
        :: scratch_events (S i) rest
  end.

(** A segment of the transcript as the aggregator is said to write it:
    a space, then the chunk's text. *)
Definition space_prefixed (s : string) : bool := String.prefix " " s.

(** The segments of a transcript, joined. *)
Definition join (segments : list string) : string :=
  foldr String.append "" segments.

(** The world a chunk's retry loop starts in: the chunk is on disk. *)
Definition exported (i : nat) (chunk : AudioSegment) (w : world) : world :=
  World (<[temp_chunk_file i := chunk]> (fs w)) (calls w)
        (trace w ++ [Export (temp_chunk_file i) chunk]).

(** ** The rest of [main.py]: video ids, transcripts, summaries, the form *)

(** What a call into a remote library gives back, as far as the program
    looks at it: a value, or an exception [e] caught by [except Exception],
    of which only [str(e)] is used. *)
Inductive outcome (A : Type) : Type :=
| Returned (a : A)
| Failed (message : string).
Arguments Returned {A} a.
Arguments Failed {A} message.

(** [sep.join(parts)] *)
Fixpoint str_join (sep : string) (parts : list string) : string :=
  match parts with
  | [] => ""
  | [part] => part
  | part :: rest => part +:+ sep +:+ str_join sep rest
  end.

(** The line feed of ["\n"]. *)
Definition newline : string := String (ascii_of_nat 10) "".

(** [str(x)] inside an f-string, for [x] a [str] or [None]. *)
Definition format_value (x : option string) : string :=
  match x with
  | Some s => s
  | None => "None"
  end.

(** Truth of a [str] or [None] in a condition: a non-empty string. *)
Definition truthy (x : option string) : bool :=
  match x with
  | Some (String _ _) => true
  | _ => false
  end.

(** Truth of an [UploadFile] or [None] in a condition: any upload. *)
Definition uploaded (f : option (list Z)) : bool :=
  match f with
  | Some _ => true
  | None => false
  end.

(** *** [extract_video_id]: [re.search(r"(?<=v=)[^&\s]+", youtube_url)]

    A string is the sequence of its characters, each a code point below
    256. *)

(** [\s] on [str]: the white space among these code points. *)
Definition is_whitespace (c : ascii) : bool :=
  bool_decide (nat_of_ascii c ∈ [9; 10; 11; 12; 13; 28; 29; 30; 31; 32; 133; 160]).

(** [[^&\s]] *)
Definition id_char (c : ascii) : bool :=
  negb (Ascii.eqb c "&") && negb (is_whitespace c).

(** The longest prefix of [s] made of characters that satisfy [p]: what a
    greedy [[...]+] takes at the start of [s]. *)
Fixpoint take_while (p : ascii -> bool) (s : string) : string :=
  match s with
  | EmptyString => EmptyString
  | String c rest => if p c then String c (take_while p rest) else EmptyString
  end.

Fixpoint drop_while (p : ascii -> bool) (s : string) : string :=
  match s with
  | EmptyString => EmptyString
  | String c rest => if p c then drop_while p rest else s
  end.

Fixpoint string_forall (p : ascii -> bool) (s : string) : bool :=
  match s with
  | EmptyString => true
  | String c rest => p c && string_forall p rest
  end.

(** [(?<=v=)]: the two characters before the position are ["v="].
    [before] holds the characters already passed, the last one first. *)
Definition after_v_equals (before : string) : bool :=
  match before with
  | String c1 (String c2 _) => Ascii.eqb c1 "=" && Ascii.eqb c2 "v"
  | _ => false
  end.

(** [re.search]: the match at the leftmost position that has one. *)
Fixpoint re_search (before s : string) : option string :=
  let found := take_while id_char s in
  if after_v_equals before && negb (String.eqb found "") then Some found
  else match s with
       | EmptyString => None
       | String c rest => re_search (String c before) rest
       end.

(** [extract_video_id(youtube_url)] (main.py, lines 57-62) *)
Definition extract_video_id (youtube_url : string) : option string :=
  re_search "" youtube_url.

(** What is left of the string after a match: nothing, or a character the
    class [[^&\s]] refuses. *)
Definition at_id_end (rest : string) : bool :=
  match rest with
  | EmptyString => true
  | String c _ => negb (id_char c)
  end.

(** The last character passed, in front of what is left. *)
Definition with_last (before s : string) : string :=
  match before with
  | EmptyString => s
  | String c _ => String c s
  end.

(** The characters passed, put back in front of what is left. *)
Fixpoint unwind (before s : string) : string :=
  match before with
  | EmptyString => s
  | String c before' => unwind before' (String c s)
  end.

(** *** [get_youtube_transcript] *)

(** What [YouTubeTranscriptApi.list_transcripts(video_id)] gives: the
    transcripts of the video, each with the outcome of its [fetch()] (the
    items, an item being its ['text'] when it has one that is a string);
    or [TranscriptsDisabled]; or another exception. *)
Inductive listing : Type :=
| Listed (transcripts : list (outcome (list (option string))))
| TranscriptsDisabled
| ListingFailed (message : string).

(** [[item['text'] for item in transcript_data]], which raises when an item
    has no such text. *)
Definition item_texts (transcript_data : list (option string)) : option (list string) :=
  mapM id transcript_data.

(** A transcript the loop can return: it is fetched and every item has
    its text. *)
Definition usable (transcript : outcome (list (option string))) : bool :=
  match transcript with
  | Returned transcript_data => bool_decide (is_Some (item_texts transcript_data))
  | Failed _ => false
  end.

(** The loop of lines 33-40: the first transcript that can be fetched and
    joined is returned, every failure is skipped. *)
Fixpoint first_transcript (transcript_list : list (outcome (list (option string))))
    : option string :=
  match transcript_list with
  | [] => None
  | transcript :: rest =>
      match transcript with
      | Returned transcript_data =>
          match item_texts transcript_data with
          | Some texts => Some (str_join " " texts)
          | None => first_transcript rest
          end
      | Failed _ => first_transcript rest
      end
  end.

(** The answer of the model, the state of the server: the surroundings of
    [transcribe_audio], and the prompts sent to the model so far. *)
Record server : Type := Server {
  surroundings : world;
  prompts : list string
}.

(** The context handed to the template: [summary] and [error]. *)
Record response : Type := Response {
  summary : option string;
  error : option string
}.

(** [open(path, "wb")] and [f.write(content)]. *)
Definition write_file (path : string) (content : list Z) (w : world) : world :=
  World (<[path := content]> (fs w)) (calls w) (trace w).

Definition with_surroundings (s : server) (w : world) : server :=
  Server w (prompts s).

Section Site.

Variable split_on_silence : AudioSegment -> Z -> Z -> list AudioSegment.
Variable remote : nat -> AudioSegment -> result string.

(** [YouTubeTranscriptApi.list_transcripts] *)
Variable list_transcripts : string -> listing.

(** [model.generate_content(prompt).text] *)
Variable generate_content : string -> outcome string.

(** [Document(path).paragraphs], the text of each, from what is on disk at
    [path] (nothing, or the bytes of the file). *)
Variable Document : option (list Z) -> outcome (list string).

(** [str(e)] *)
Variable exception_text : exn -> string.

(** [get_youtube_transcript(video_id)] (lines 27-47) *)
Definition get_youtube_transcript (video_id : string) : string :=
  match list_transcripts video_id with
  | Listed transcript_list =>
      match first_transcript transcript_list with
      | Some transcript_text => transcript_text
      | None => "No transcript available in any language."
      end
  | TranscriptsDisabled => "Transcripts are disabled for this video."
  | ListingFailed message => "Error retrieving transcript: " +:+ message
  end.

(** The prompt of line 52. *)
Definition summary_prompt (text : option string) : string :=
  "Summarize the following text in a concise, point-wise format with bullet points:"
    +:+ newline +:+ newline +:+ format_value text +:+ newline
    +:+ " use professional and clear tone and attractive words to maintain reader's engagement".

(** [summarize_text(text)] (lines 50-55) *)
Definition summarize_text (text : option string) (s : server) : string * server :=
  let s' := Server (surroundings s) (prompts s ++ [summary_prompt text]) in
  match generate_content (summary_prompt text) with
  | Returned response_text => (response_text, s')
  | Failed message => ("Error summarizing text: " +:+ message, s')
  end.

(** [extract_text_from_docx(docx_file)] (lines 64-72) *)
Definition extract_text_from_docx (docx_file : string) (w : world) : string :=
  match Document (fs w !! docx_file) with
  | Returned paragraphs => str_join newline paragraphs
  | Failed message => "Error extracting text from docx: " +:+ message
  end.

(** The audio branch of the form handler (lines 143-151). *)
Definition audio_branch (audio_file : option (list Z)) (s : server) : response * server :=
  match audio_file with
  | None =>
      (Response None
         (Some ("Error processing audio: " +:+ "'NoneType' object has no attribute 'file'")),
       with_surroundings s (write_file "temp_audio.wav" [] (surroundings s)))
  | Some content =>
      match transcribe_audio split_on_silence remote "temp_audio.wav" 3 5
              (write_file "temp_audio.wav" content (surroundings s)) with
      | (Raised e, w) =>
          (Response None (Some ("Error processing audio: " +:+ exception_text e)),
           with_surroundings s w)
      | (Ok transcript, w) =>
          let (text, s') := summarize_text (Some transcript) (with_surroundings s w) in
          match os_remove "temp_audio.wav" (surroundings s') with
          | (Ok _, w') => (Response (Some text) None, with_surroundings s' w')
          | (Raised e, w') =>
              (Response (Some text)
                 (Some ("Error processing audio: " +:+ exception_text e)),
               with_surroundings s' w')
          end
      end
  end.

(** The document branch of the form handler (lines 153-162). *)
Definition docx_branch (docx_file : option (list Z)) (s : server) : response * server :=
  match docx_file with
  | None =>
      (Response None
         (Some ("Error processing document: "
                  +:+ "'NoneType' object has no attribute 'file'")),
       with_surroundings s (write_file "temp_doc.docx" [] (surroundings s)))
  | Some content =>
      let w := write_file "temp_doc.docx" content (surroundings s) in
      let (text, s') :=
        summarize_text (Some (extract_text_from_docx "temp_doc.docx" w))
          (with_surroundings s w) in
      match os_remove "temp_doc.docx" (surroundings s') with
      | (Ok _, w') => (Response (Some text) None, with_surroundings s' w')
      | (Raised e, w') =>
          (Response (Some text)
             (Some ("Error processing document: " +:+ exception_text e)),
           with_surroundings s' w')
      end
  end.

(** [summarize(request, youtube_url, text_input, audio_file, docx_file)]
    (lines 118-167): the conditions are read as Python reads them, [not]
    before [and] before [or]. *)
Definition summarize (youtube_url text_input : option string)
    (audio_file docx_file : option (list Z)) (s : server) : response * server :=
  if truthy youtube_url then
    match extract_video_id (format_value youtube_url) with
    | Some video_id =>
        let transcript := get_youtube_transcript video_id in
        if negb (contains "Error" transcript)
        then let (text, s') := summarize_text (Some transcript) s in
             (Response (Some text) None, s')
        else (Response None (Some transcript), s)
    | None => (Response None (Some "Invalid YouTube URL"), s)
    end
  else if (truthy text_input && negb (truthy youtube_url))
          || uploaded audio_file || uploaded docx_file then
    let (text, s') := summarize_text text_input s in
    (Response (Some text) None, s')
  else if (uploaded audio_file && negb (truthy youtube_url))
          || truthy text_input || uploaded docx_file then
    audio_branch audio_file s
  else if (uploaded docx_file && negb (truthy youtube_url))
          || truthy text_input || uploaded audio_file then
    docx_branch docx_file s
  else (Response None (Some "Error no input provided !"), s).

End Site.

(** *** Sample sites *)

Definition server0 : server := Server disk0 [].

(** A video with one transcript that cannot be fetched and one that can. *)
Definition two_transcripts (_ : string) : listing :=
  Listed [Failed "no element found"; Returned [Some "never gonna"; Some "give you up"]].
Definition unreachable_video (_ : string) : listing :=
  ListingFailed "Could not retrieve a transcript".
Definition error_talk (_ : string) : listing :=
  Listed [Returned [Some "Error handling in Python"]].
Definition unfetchable_video (_ : string) : listing :=
  Listed [Failed "no element found"; Returned [Some "never gonna"; None]].

(** A model that answers, and one whose quota is spent. *)
Definition echo_model (prompt : string) : outcome string := Returned "- a point".
Definition spent_model (prompt : string) : outcome string := Failed "429 quota exceeded".

Definition no_document (_ : option (list Z)) : outcome (list string) :=
  Failed "Package not found".
Definition sample_exception_text (e : exn) : string :=
  match e with
  | UnknownValueError => ""
  | RequestError msg => msg
  | ValueError msg => msg
  | FileNotFoundError path => path
  | OtherError cls => cls
  end.


(** A service that plays the scenario of section 8 over and over. *)
Definition cyclic_remote (k : nat) (_ : AudioSegment) : result string :=
  match k mod 3 with
  | 0 => Ok "hello"
  | 1 => Raised UnknownValueError
  | _ => Ok "world"
  end.


(** * Properties *)

(** ** Strings and logs *)

Lemma append_assoc (s1 s2 s3 : string) : (s1 +:+ s2) +:+ s3 = s1 +:+ s2 +:+ s3.
Proof.
  induction s1 as [|c s1 IH]; [reflexivity |].
  exact (f_equal (String c) IH).
Qed.

Lemma append_nil_r (s : string) : s +:+ "" = s.
Proof.
  induction s as [|c s IH]; [reflexivity |].
  exact (f_equal (String c) IH).
Qed.

Lemma range_nonpositive (n : Z) : (n <= 0)%Z -> range n = [].
Proof. intros Hn. unfold range. by replace (Z.to_nat n) with 0 by lia. Qed.

Lemma range_positive (n : Z) : (0 < n)%Z -> exists rest, range n = 0 :: rest.
Proof.
  intros Hn. unfold range.
  destruct (Z.to_nat n) as [|m] eqn:E; [lia |].
  by exists (seq 1 m).
Qed.

Lemma range_length (n : Z) : length (range n) = Z.to_nat n.
Proof. unfold range. apply length_seq. Qed.

Lemma attempts_in_retry_events d a attempts :
  attempts_in (retry_events d a attempts) = length attempts.
Proof.
  unfold attempts_in.
  induction attempts as [|k attempts IH]; simpl; [reflexivity | by rewrite IH].
Qed.

Lemma sleeps_in_retry_events d a attempts :
  sleeps_in (retry_events d a attempts) = length attempts.
Proof.
  unfold sleeps_in.
  induction attempts as [|k attempts IH]; simpl; [reflexivity | by rewrite IH].
Qed.

Lemma last_retry_events d a attempts :
  attempts <> [] -> last (retry_events d a attempts) = Some (Sleep d).
Proof.
  destruct attempts as [|k attempts _] using rev_ind; [done | intros _].
  unfold retry_events. rewrite flat_map_app. simpl.
  change [Recognize a; Stdout (retry_message k d); Sleep d]
    with ([Recognize a; Stdout (retry_message k d)] ++ [Sleep d]).
  rewrite app_assoc. apply last_snoc.
Qed.

Lemma foldr_delete_delete (m : gmap string AudioSegment) (path : string) (paths : list string) :
  foldr delete (delete path m) paths = delete path (foldr delete m paths).
Proof.
  induction paths as [|p paths IH]; [reflexivity |].
  simpl. rewrite IH. apply delete_delete.
Qed.

Lemma lookup_foldr_delete (m : gmap string AudioSegment) (path : string) (paths : list string) :
  foldr delete m paths !! path = if bool_decide (path ∈ paths) then None else m !! path.
Proof.
  induction paths as [|p paths IH]; [reflexivity |].
  simpl. destruct (decide (p = path)) as [-> | Hne].
  - rewrite lookup_delete_eq.
    by rewrite bool_decide_eq_true_2 by apply list_elem_of_here.
  - rewrite lookup_delete_ne by done. rewrite IH.
    destruct (decide (path ∈ paths)) as [Hin | Hout].
    + rewrite !bool_decide_eq_true_2; [done | by apply list_elem_of_further | done].
    + rewrite !bool_decide_eq_false_2; [done | | done].
      intros [-> | Hin]%elem_of_cons; done.
Qed.

Lemma sleep_error_none (d : Z) :
  sleep_error d = None <-> (0 <= d <= sleep_limit)%Z.
Proof.
  unfold sleep_error, sleep_limit.
  destruct (Z.ltb_spec d (Z.opp 9223372036)) as [Hlow | Hlow],
           (Z.ltb_spec 9223372036 d) as [Hhigh | Hhigh],
           (Z.ltb_spec d 0) as [Hneg | Hneg];
    cbn [orb]; split; intros H;
    first [discriminate H | reflexivity | lia].
Qed.

(** ** One attempt, one chunk *)

Section Properties.

Variable split_on_silence : AudioSegment -> Z -> Z -> list AudioSegment.
Variable remote : nat -> AudioSegment -> result string.

(** An attempt, by the answer of the service. *)
Lemma attempt_body_eq d a k t w :
  attempt_body remote d a k t w =
  let w1 := World (fs w) (S (calls w)) (trace w ++ [Recognize a]) in
  match remote (calls w) a with
  | Ok s => (Ok (t +:+ " " +:+ s, Break), w1)
  | Raised UnknownValueError =>
      (Ok (t +:+ " [Could not understand audio chunk] ", Break), w1)
  | Raised (RequestError msg) =>
      if contains "Broken pipe" msg then
        let w2 := World (fs w) (S (calls w))
                        (trace w1 ++ [Stdout (retry_message k d)]) in
        match sleep_error d with
        | Some e => (Raised e, w2)
        | None => (Ok (t, Continue),
                   World (fs w) (S (calls w)) (trace w2 ++ [Sleep d]))
        end
      else (Ok (t +:+ " [Could not transcribe audio chunk: " +:+ msg +:+ "] ", Break), w1)
  | Raised e => (Raised e, w1)
  end.
Proof.
  unfold attempt_body, try_except, recognize_google, bind, ret.
  destruct (remote (calls w) a) as [s|[| msg | | |]]; simpl; try reflexivity.
  destruct (contains "Broken pipe" msg); simpl; [| reflexivity].
  unfold sleep, sleep_error, print, log, raise. simpl.
  destruct ((d <? - sleep_limit) || (sleep_limit <? d))%Z; [reflexivity |].
  by destruct (d <? 0)%Z.
Qed.

Lemma retry_loop_cons d a k rest t w :
  retry_loop remote d a (k :: rest) t w =
  match attempt_body remote d a k t w with
  | (Ok r, w') =>
      match snd r with
      | Break => (Ok (fst r), w')
      | Continue => retry_loop remote d a rest (fst r) w'
      end
  | (Raised e, w') => (Raised e, w')
  end.
Proof.
  simpl. unfold bind.
  destruct (attempt_body remote d a k t w) as [[[t' []]|e] w']; reflexivity.
Qed.

(** The retry loop never touches the disk. *)
Lemma retry_loop_fs d a attempts t w :
  fs (snd (retry_loop remote d a attempts t w)) = fs w.
Proof.
  revert t w. induction attempts as [|k attempts IH]; intros t w; [reflexivity |].
  rewrite retry_loop_cons, attempt_body_eq. simpl.
  destruct (remote (calls w) a) as [s|[| msg | | |]]; simpl; try reflexivity.
  destruct (contains "Broken pipe" msg); simpl; [| reflexivity].
  destruct (sleep_error d); simpl; [reflexivity |].
  by rewrite IH.
Qed.

(** The count of requests only grows, by at most one for each attempt
    the loop may make. *)
Lemma retry_loop_calls d a attempts t w :
  calls w <= calls (snd (retry_loop remote d a attempts t w)) <= calls w + length attempts.
Proof.
  revert t w. induction attempts as [|k attempts IH]; intros t w; [simpl; lia |].
  rewrite retry_loop_cons, attempt_body_eq. simpl.
  destruct (remote (calls w) a) as [s|[| msg | | |]]; simpl; try lia.
  destruct (contains "Broken pipe" msg); simpl; [| lia].
  destruct (sleep_error d); simpl; [lia |].
  match goal with |- context [retry_loop remote d a attempts t ?w1] =>
    specialize (IH t w1) end.
  simpl in IH. lia.
Qed.

(** A loop that has an attempt to make sends a request. *)
Lemma retry_loop_first_request d a k rest t w :
  calls w < calls (snd (retry_loop remote d a (k :: rest) t w)).
Proof.
  rewrite retry_loop_cons, attempt_body_eq. simpl.
  destruct (remote (calls w) a) as [s|[| msg | | |]]; simpl; try lia.
  destruct (contains "Broken pipe" msg); simpl; [| lia].
  destruct (sleep_error d); simpl; [lia |].
  match goal with |- context [retry_loop remote d a rest t ?w1] =>
    pose proof (retry_loop_calls d a rest t w1) as Hrest end.
  simpl in Hrest. lia.
Qed.

(** A chunk's processing, spelled out around its retry loop. *)
Lemma process_chunk_unfold n d i chunk t w :
  process_chunk remote n d i chunk t w =
  match retry_loop remote d chunk (range n) t (exported i chunk w) with
  | (Ok t', w1) =>
      (Ok t', World (delete (temp_chunk_file i) (fs w)) (calls w1)
                    (trace w1 ++ [Remove (temp_chunk_file i)]))
  | (Raised e, w1) => (Raised e, w1)
  end.
Proof.
  unfold process_chunk, bind at 1, export. fold (exported i chunk w).
  unfold bind at 1, record.
  replace (fs (exported i chunk w) !! temp_chunk_file i) with (Some chunk)
    by (symmetry; apply lookup_insert_eq).
  unfold bind at 1.
  pose proof (retry_loop_fs d chunk (range n) t (exported i chunk w)) as Hfs.
  destruct (retry_loop remote d chunk (range n) t (exported i chunk w)) as [[t'|e] w1];
    [| reflexivity].
  simpl in Hfs. unfold bind, os_remove, ret. rewrite Hfs. simpl.
  rewrite lookup_insert_eq. by rewrite delete_insert_eq.
Qed.

(** A loop whose every attempt ends in a broken pipe runs to its end and
    leaves the transcript as it found it. *)
Lemma retry_loop_broken_pipe d a attempts t w :
  sleep_error d = None ->
  (forall k, k < length attempts -> is_broken_pipe (remote (calls w + k) a) = true) ->
  retry_loop remote d a attempts t w =
  (Ok t, World (fs w) (calls w + length attempts)
               (trace w ++ retry_events d a attempts)).
Proof.
  intros Hd. revert w.
  induction attempts as [|k attempts IH]; intros w Hbp.
  - simpl. unfold ret. rewrite Nat.add_0_r, app_nil_r. by destruct w.
  - pose proof (Hbp 0 ltac:(simpl; lia)) as H0. rewrite Nat.add_0_r in H0.
    rewrite retry_loop_cons, attempt_body_eq. simpl.
    destruct (remote (calls w) a) as [s|[| msg | | |]]; try discriminate H0.
    simpl in H0. rewrite H0, Hd.
    simpl. rewrite IH.
    + simpl. f_equal. f_equal; [lia |].
      by rewrite <- !app_assoc.
    + intros j Hj. simpl.
      replace (S (calls w + j)) with (calls w + S j) by lia.
      apply Hbp. simpl. lia.
Qed.

Lemma process_chunk_broken_pipe n d i chunk t w :
  (n <= 0 \/ 0 <= d <= sleep_limit)%Z ->
  (forall k, k < Z.to_nat n -> is_broken_pipe (remote (calls w + k) chunk) = true) ->
  process_chunk remote n d i chunk t w =
  (Ok t, World (delete (temp_chunk_file i) (fs w)) (calls w + Z.to_nat n)
               (trace w ++ Export (temp_chunk_file i) chunk
                  :: retry_events d chunk (range n) ++ [Remove (temp_chunk_file i)])).
Proof.
  intros [Hn | Hd] Hbp.
  - rewrite process_chunk_unfold, (range_nonpositive n Hn). simpl.
    replace (Z.to_nat n) with 0 by lia.
    rewrite Nat.add_0_r. by rewrite <- !app_assoc.
  - apply sleep_error_none in Hd.
    rewrite process_chunk_unfold, retry_loop_broken_pipe; [| done |].
    + simpl. rewrite range_length. do 2 f_equal.
      by rewrite <- !app_assoc.
    + intros k Hk. rewrite range_length in Hk. by apply Hbp.
Qed.

(** A broken pipe followed by a sleep that raises: the exception leaves
    the chunk's processing, after one request and the retry line. *)
Lemma process_chunk_sleep_raises n d i chunk e t w :
  (0 < n)%Z ->
  is_broken_pipe (remote (calls w) chunk) = true ->
  sleep_error d = Some e ->
  process_chunk remote n d i chunk t w =
  (Raised e,
   World (<[temp_chunk_file i := chunk]> (fs w)) (S (calls w))
         (trace w ++ [Export (temp_chunk_file i) chunk; Recognize chunk;
                      Stdout (retry_message 0 d)])).
Proof.
  intros Hn Hbp Hsleep. rewrite process_chunk_unfold.
  destruct (range_positive n Hn) as [later ->].
  rewrite retry_loop_cons, attempt_body_eq. simpl.
  destruct (remote (calls w) chunk) as [s|[| msg | | |]]; try discriminate Hbp.
  simpl in Hbp. rewrite Hbp, Hsleep. simpl.
  by rewrite <- !app_assoc.
Qed.

Lemma sleep_error_overflow d :
  (sleep_limit < d)%Z -> sleep_error d = Some (OtherError "OverflowError").
Proof.
  intros Hd. unfold sleep_error.
  replace (sleep_limit <? d)%Z with true by (symmetry; apply Z.ltb_lt; lia).
  by rewrite orb_true_r.
Qed.

(** A chunk whose first attempt ends the loop: one request, then the
    scratch file is removed. *)
Lemma process_chunk_first_attempt n d i chunk t t' w :
  (0 < n)%Z ->
  attempt_body remote d chunk 0 t (exported i chunk w) =
    (Ok (t', Break),
     World (fs (exported i chunk w)) (S (calls w))
           (trace (exported i chunk w) ++ [Recognize chunk])) ->
  process_chunk remote n d i chunk t w =
  (Ok t', World (delete (temp_chunk_file i) (fs w)) (S (calls w))
                (trace w ++ [Export (temp_chunk_file i) chunk; Recognize chunk;
                             Remove (temp_chunk_file i)])).
Proof.
  intros Hn Hbody. rewrite process_chunk_unfold.
  destruct (range_positive n Hn) as [rest ->].
  rewrite retry_loop_cons, Hbody. simpl.
  by rewrite <- !app_assoc.
Qed.

Lemma process_chunk_recognized n d i chunk text t w :
  (0 < n)%Z ->
  remote (calls w) chunk = Ok text ->
  process_chunk remote n d i chunk t w =
  (Ok (t +:+ " " +:+ text),
   World (delete (temp_chunk_file i) (fs w)) (S (calls w))
         (trace w ++ [Export (temp_chunk_file i) chunk; Recognize chunk;
                      Remove (temp_chunk_file i)])).
Proof.
  intros Hn Hr. apply process_chunk_first_attempt; [done |].
  rewrite attempt_body_eq. simpl. by rewrite Hr.
Qed.

Lemma process_chunk_unintelligible n d i chunk t w :
  (0 < n)%Z ->
  remote (calls w) chunk = Raised UnknownValueError ->
  process_chunk remote n d i chunk t w =
  (Ok (t +:+ " [Could not understand audio chunk] "),
   World (delete (temp_chunk_file i) (fs w)) (S (calls w))
         (trace w ++ [Export (temp_chunk_file i) chunk; Recognize chunk;
                      Remove (temp_chunk_file i)])).
Proof.
  intros Hn Hr. apply process_chunk_first_attempt; [done |].
  rewrite attempt_body_eq. simpl. by rewrite Hr.
Qed.

(** C5: a chunk the recogniser reports as not understood at the first
    attempt costs exactly one recognition attempt and no sleep, and the
    fixed marker [" [Could not understand audio chunk] "] is appended to
    the transcript. *)
Theorem unintelligible_chunk_single_attempt n d i chunk t w :
  (0 < n)%Z ->
  remote (calls w) chunk = Raised UnknownValueError ->
  let evs := [Recognize chunk] in
  process_chunk remote n d i chunk t w =
    (Ok (t +:+ " [Could not understand audio chunk] "),
     World (delete (temp_chunk_file i) (fs w)) (S (calls w))
           (trace w ++ Export (temp_chunk_file i) chunk :: evs
              ++ [Remove (temp_chunk_file i)]))
  /\ attempts_in evs = 1 /\ sleeps_in evs = 0.
Proof.
  intros Hn Hr evs. split; [| done].
  by apply process_chunk_unintelligible.
Qed.

(** C6: a chunk whose request fails with a message that does not contain
    ["Broken pipe"] costs exactly one recognition attempt and no sleep,
    and the marker carrying that message verbatim is appended. *)
Theorem other_request_error_single_attempt n d i chunk msg t w :
  (0 < n)%Z ->
  remote (calls w) chunk = Raised (RequestError msg) ->
  contains "Broken pipe" msg = false ->
  let evs := [Recognize chunk] in
  process_chunk remote n d i chunk t w =
    (Ok (t +:+ " [Could not transcribe audio chunk: " +:+ msg +:+ "] "),
     World (delete (temp_chunk_file i) (fs w)) (S (calls w))
           (trace w ++ Export (temp_chunk_file i) chunk :: evs
              ++ [Remove (temp_chunk_file i)]))
  /\ attempts_in evs = 1 /\ sleeps_in evs = 0.
Proof.
  intros Hn Hr Hmsg evs. split; [| done].
  apply process_chunk_first_attempt; [done |].
  rewrite attempt_body_eq. simpl. by rewrite Hr, Hmsg.
Qed.

(** C1, as the code has it: with every attempt ending in a broken pipe
    and a [retry_delay] that [time.sleep] takes, the chunk costs exactly
    [max_retries] recognition attempts, and each of them, the final one
    included, is followed by a sleep of [retry_delay] seconds:
    [max_retries] sleeps, the last one right before the scratch file is
    removed.  With a [retry_delay] too long for [time.sleep], the first
    sleep raises [OverflowError] and the chunk's processing ends there. *)
Theorem broken_pipe_sleeps_after_every_attempt n d i chunk t w :
  (0 < n)%Z ->
  (0 < d)%Z ->
  (forall k, k < Z.to_nat n -> is_broken_pipe (remote (calls w + k) chunk) = true) ->
  let evs := retry_events d chunk (range n) in
  ((d <= sleep_limit)%Z ->
   process_chunk remote n d i chunk t w =
     (Ok t, World (delete (temp_chunk_file i) (fs w)) (calls w + Z.to_nat n)
                  (trace w ++ Export (temp_chunk_file i) chunk :: evs
                     ++ [Remove (temp_chunk_file i)]))
   /\ attempts_in evs = Z.to_nat n
   /\ sleeps_in evs = Z.to_nat n
   /\ last evs = Some (Sleep d))
  /\ ((sleep_limit < d)%Z ->
      process_chunk remote n d i chunk t w =
        (Raised (OtherError "OverflowError"),
         World (<[temp_chunk_file i := chunk]> (fs w)) (S (calls w))
               (trace w ++ [Export (temp_chunk_file i) chunk; Recognize chunk;
                            Stdout (retry_message 0 d)]))).
Proof.
  intros Hn Hd Hbp evs. subst evs. split.
  - intros Hlimit. repeat split.
    + apply process_chunk_broken_pipe; [right; lia | done].
    + by rewrite attempts_in_retry_events, range_length.
    + by rewrite sleeps_in_retry_events, range_length.
    + apply last_retry_events.
      by destruct (range_positive n Hn) as [rest ->].
  - intros Hlimit. apply process_chunk_sleep_raises; [done | |].
    + specialize (Hbp 0 ltac:(lia)). by rewrite Nat.add_0_r in Hbp.
    + by apply sleep_error_overflow.
Qed.



(** An exception of a class the loop has no [except] clause for leaves the
    chunk's processing at once, and the scratch file stays where it is. *)
Lemma uncaught_exception_leaves_scratch_file n d i chunk e t w :
  (0 < n)%Z ->
  remote (calls w) chunk = Raised e ->
  handled (Raised e) = false ->
  exists w',
    process_chunk remote n d i chunk t w = (Raised e, w')
    /\ fs w' !! temp_chunk_file i = Some chunk.
Proof.
  intros Hn Hr He. rewrite process_chunk_unfold.
  destruct (range_positive n Hn) as [rest ->].
  rewrite retry_loop_cons, attempt_body_eq. simpl. rewrite Hr.
  destruct e; try discriminate He; simpl;
    (eexists; split; [reflexivity | apply lookup_insert_eq]).
Qed.


(** ** The loop over the chunks *)

Lemma for_chunks_cons n d i chunk rest t w :
  for_chunks remote n d i (chunk :: rest) t w =
  match process_chunk remote n d i chunk t w with
  | (Ok t', w') => for_chunks remote n d (S i) rest t' w'
  | (Raised e, w') => (Raised e, w')
  end.
Proof. reflexivity. Qed.

(** The retry loop only ever appends to the transcript: nothing when
    every attempt ends in a broken pipe, and otherwise a piece that starts
    with a space. *)
Lemma retry_loop_appends d a attempts t w t' w' :
  retry_loop remote d a attempts t w = (Ok t', w') ->
  exists seg,
    t' = t +:+ seg
    /\ (seg = "" \/ space_prefixed seg = true)
    /\ ((forall k, k < length attempts ->
                   is_broken_pipe (remote (calls w + k) a) = true) -> seg = "")
    /\ ((exists k, k < length attempts
                   /\ is_broken_pipe (remote (calls w + k) a) = false) ->
        space_prefixed seg = true).
Proof.
  assert (Hfinal : forall w0 piece,
            is_broken_pipe (remote (calls w0) a) = false ->
            space_prefixed piece = true ->
            forall (made : list nat),
              (piece = "" \/ space_prefixed piece = true)
              /\ ((forall k, k < S (length made) ->
                      is_broken_pipe (remote (calls w0 + k) a) = true) -> piece = "")
              /\ ((exists k, k < S (length made)
                      /\ is_broken_pipe (remote (calls w0 + k) a) = false) ->
                  space_prefixed piece = true)).
  { intros w0 piece Hnot Hsp made.
    split; [by right |]. split; [| done].
    intros Hall. specialize (Hall 0 ltac:(lia)).
    rewrite Nat.add_0_r in Hall. congruence. }
  revert w. induction attempts as [|j attempts IH]; intros w.
  - intros [= <- _]. exists "". split; [symmetry; apply append_nil_r |].
    split; [by left |]. split; [done |].
    intros (k & Hk & _). simpl in Hk. lia.
  - rewrite retry_loop_cons, attempt_body_eq. simpl.
    destruct (remote (calls w) a) as [s|[| msg | | |]] eqn:Hr; simpl; try discriminate.
    + intros [= <- _]. eexists. split; [reflexivity |].
      apply Hfinal; [by rewrite Hr | by destruct s].
    + intros [= <- _]. eexists. split; [reflexivity |].
      apply Hfinal; [by rewrite Hr | reflexivity].
    + destruct (contains "Broken pipe" msg) eqn:Hmsg.
      * destruct (sleep_error d); [discriminate |]. simpl. intros Hrest.
        destruct (IH _ Hrest) as (seg & -> & Hshape & Hempty & Hfull).
        exists seg. split; [reflexivity |]. split; [exact Hshape |]. split.
        -- intros Hall. apply Hempty. intros k Hk. simpl.
           replace (S (calls w + k)) with (calls w + S k) by lia.
           apply Hall. simpl. lia.
        -- intros (k & Hk & Hnot). apply Hfull.
           destruct k as [|k].
           ++ rewrite Nat.add_0_r, Hr in Hnot. simpl in Hnot. congruence.
           ++ exists k. split; [simpl in Hk; lia |]. simpl.
              by replace (S (calls w + k)) with (calls w + S k) by lia.
      * intros [= <- _]. eexists. split; [reflexivity |].
        apply Hfinal; [rewrite Hr; exact Hmsg | reflexivity].
Qed.

Lemma process_chunk_appends n d i chunk t w t' w' :
  process_chunk remote n d i chunk t w = (Ok t', w') ->
  exists seg,
    t' = t +:+ seg
    /\ (seg = "" \/ space_prefixed seg = true)
    /\ ((forall k, k < Z.to_nat n ->
                   is_broken_pipe (remote (calls w + k) chunk) = true) -> seg = "")
    /\ ((exists k, k < Z.to_nat n
                   /\ is_broken_pipe (remote (calls w + k) chunk) = false) ->
        space_prefixed seg = true).
Proof.
  rewrite process_chunk_unfold.
  destruct (retry_loop remote d chunk (range n) t (exported i chunk w))
    as [[t1|e] w1] eqn:Hloop; [| discriminate].
  intros [= <- _].
  destruct (retry_loop_appends _ _ _ _ _ _ _ Hloop) as (seg & Ht & Hshape & Hempty & Hfull).
  rewrite range_length in Hempty, Hfull. by exists seg.
Qed.

(** C4, amended: a run over N chunks that returns has written N
    segments, one per chunk and in the order of the chunks.  The segment
    of a chunk is empty exactly when every attempt for it ended in a broken
    pipe (all [max_retries] of them; none when [max_retries <= 0]), and it
    starts with a space in every other case.  The transcript only grows:
    after the first [j] chunks it is the first [j] segments, joined. *)
Theorem transcript_joins_chunk_segments n d i chunks t0 w t w' :
  for_chunks remote n d i chunks t0 w = (Ok t, w') ->
  exists segments,
    length segments = length chunks
    /\ Forall (fun seg => seg = "" \/ space_prefixed seg = true) segments
    /\ t = t0 +:+ join segments
    /\ (forall j, j <= length chunks ->
          exists wj,
            for_chunks remote n d i (take j chunks) t0 w
            = (Ok (t0 +:+ join (take j segments)), wj))
    /\ (forall j chunk, chunks !! j = Some chunk ->
          exists wj segment,
            segments !! j = Some segment
            /\ for_chunks remote n d i (take j chunks) t0 w
               = (Ok (t0 +:+ join (take j segments)), wj)
            /\ ((forall k, k < Z.to_nat n ->
                    is_broken_pipe (remote (calls wj + k) chunk) = true) ->
                segment = "")
            /\ ((exists k, k < Z.to_nat n
                    /\ is_broken_pipe (remote (calls wj + k) chunk) = false) ->
                space_prefixed segment = true)).
Proof.
  revert i t0 w. induction chunks as [|chunk rest IH]; intros i t0 w.
  - intros [= <- _]. exists [].
    split; [reflexivity |]. split; [constructor |].
    split; [symmetry; apply append_nil_r |]. split.
    + intros j _. exists w. rewrite !take_nil.
      by replace (t0 +:+ join []) with t0 by (symmetry; apply append_nil_r).
    + intros j chunk Hj. by rewrite lookup_nil in Hj.
  - rewrite for_chunks_cons.
    destruct (process_chunk remote n d i chunk t0 w) as [[t1|e] w1] eqn:Hchunk;
      [| discriminate].
    destruct (process_chunk_appends _ _ _ _ _ _ _ _ Hchunk)
      as (seg & -> & Hseg & Hempty & Hfull).
    intros Hrest.
    destruct (IH _ _ _ Hrest) as (segments & Hlen & Hall & -> & Hprefix & Heach).
    exists (seg :: segments).
    split; [simpl; by rewrite Hlen |]. split; [by constructor |].
    split; [apply append_assoc |]. split.
    + intros [|j] Hj.
      * exists w. rewrite !take_0.
        by replace (t0 +:+ join []) with t0 by (symmetry; apply append_nil_r).
      * simpl in Hj. destruct (Hprefix j ltac:(lia)) as (wj & Hwj).
        exists wj. rewrite !firstn_cons, for_chunks_cons, Hchunk, Hwj.
        by replace ((t0 +:+ seg) +:+ join (take j segments))
          with (t0 +:+ join (seg :: take j segments)) by (symmetry; apply append_assoc).
    + intros [|j] chunk' Hj.
      * injection Hj as <-. exists w, seg. rewrite !take_0.
        replace (t0 +:+ join []) with t0 by (symmetry; apply append_nil_r).
        split; [reflexivity |]. split; [reflexivity |]. by split.
      * destruct (Heach j chunk' Hj) as (wj & segment & Hsegment & Hwj & Hthen & Helse).
        exists wj, segment. split; [exact Hsegment |].
        rewrite !firstn_cons, for_chunks_cons, Hchunk, Hwj.
        replace ((t0 +:+ seg) +:+ join (take j segments))
          with (t0 +:+ join (seg :: take j segments)) by (symmetry; apply append_assoc).
        split; [reflexivity |]. by split.
Qed.

(** Two loops that are given the same answers, request for request, end
    alike and send as many requests.  Only the requests the first loop
    sends are compared. *)
Lemma retry_loop_replay d a attempts t w1 w2 :
  (forall k, calls w1 + k < calls (snd (retry_loop remote d a attempts t w1)) ->
             remote (calls w1 + k) a = remote (calls w2 + k) a) ->
  fst (retry_loop remote d a attempts t w2) = fst (retry_loop remote d a attempts t w1)
  /\ calls (snd (retry_loop remote d a attempts t w2)) + calls w1
     = calls (snd (retry_loop remote d a attempts t w1)) + calls w2.
Proof.
  revert w1 w2. induction attempts as [|j attempts IH]; intros w1 w2 Hsame.
  - simpl. split; [reflexivity | lia].
  - pose proof (retry_loop_first_request d a j attempts t w1) as Hfirst.
    assert (H0 : remote (calls w1) a = remote (calls w2) a).
    { specialize (Hsame 0). rewrite !Nat.add_0_r in Hsame. apply Hsame. lia. }
    clear Hfirst. revert Hsame.
    rewrite !retry_loop_cons, !attempt_body_eq. simpl. rewrite <- H0.
    destruct (remote (calls w1) a) as [s|[| msg | | |]]; simpl;
      try (intros _; split; [reflexivity | lia]).
    destruct (contains "Broken pipe" msg); simpl;
      [| intros _; split; [reflexivity | lia]].
    destruct (sleep_error d); simpl; [intros _; split; [reflexivity | lia] |].
    intros Hsame.
    match goal with
    | |- fst (retry_loop remote d a attempts t ?u2)
         = fst (retry_loop remote d a attempts t ?u1) /\ _ =>
        destruct (IH u1 u2) as [Hfst Hcalls]
    end.
    + intros k Hk. simpl in Hk |- *.
      replace (S (calls w1 + k)) with (calls w1 + S k) by lia.
      replace (S (calls w2 + k)) with (calls w2 + S k) by lia.
      apply Hsame. lia.
    + simpl in Hcalls. split; [exact Hfst | lia].
Qed.

(** The loop over the chunks never lowers the count of requests. *)
Lemma for_chunks_calls n d i chunks t w :
  calls w <= calls (snd (for_chunks remote n d i chunks t w)).
Proof.
  revert i t w. induction chunks as [|chunk rest IH]; intros i t w; [simpl; lia |].
  rewrite for_chunks_cons, process_chunk_unfold.
  pose proof (retry_loop_calls d chunk (range n) t (exported i chunk w)) as Hloop.
  simpl in Hloop.
  destruct (retry_loop remote d chunk (range n) t (exported i chunk w)) as [[t1|e] w1];
    simpl in Hloop |- *; [| lia].
  match goal with |- context [for_chunks remote n d (S i) rest t1 ?w2] =>
    specialize (IH (S i) t1 w2) end.
  simpl in IH. lia.
Qed.

Lemma for_chunks_replay n d i chunks t w1 w2 :
  (forall k chunk,
     chunk ∈ chunks ->
     calls w1 + k < calls (snd (for_chunks remote n d i chunks t w1)) ->
     remote (calls w1 + k) chunk = remote (calls w2 + k) chunk) ->
  fst (for_chunks remote n d i chunks t w2) = fst (for_chunks remote n d i chunks t w1).
Proof.
  revert i t w1 w2. induction chunks as [|chunk rest IH]; intros i t w1 w2 Hsame;
    [reflexivity |].
  revert Hsame. rewrite !for_chunks_cons, !process_chunk_unfold.
  pose proof (retry_loop_replay d chunk (range n) t
                (exported i chunk w1) (exported i chunk w2)) as Hloop.
  pose proof (retry_loop_calls d chunk (range n) t (exported i chunk w1)) as Hgrow.
  destruct (retry_loop remote d chunk (range n) t (exported i chunk w1))
    as [[t1|e1] u1] eqn:Hrun1;
    destruct (retry_loop remote d chunk (range n) t (exported i chunk w2))
      as [[t2|e2] u2] eqn:Hrun2;
    simpl in Hloop, Hgrow |- *; intros Hsame.
  - match type of Hsame with
    | context [for_chunks remote n d (S i) rest t1 ?v1] =>
        pose proof (for_chunks_calls n d (S i) rest t1 v1) as Hlater
    end.
    simpl in Hlater.
    destruct Hloop as [[= ->] Hcalls].
    { intros k Hk. apply Hsame; [apply list_elem_of_here | lia]. }
    apply IH. intros k chunk' Hin Hk. simpl in Hk |- *.
    replace (calls u1 + k) with (calls w1 + (calls u1 - calls w1 + k)) by lia.
    replace (calls u2 + k) with (calls w2 + (calls u1 - calls w1 + k)) by lia.
    apply Hsame; [by apply list_elem_of_further | lia].
  - destruct Hloop as [Hfst _]; [| discriminate Hfst].
    intros k Hk. apply Hsame; [apply list_elem_of_here |].
    match type of Hsame with
    | context [for_chunks remote n d (S i) rest t1 ?v1] =>
        pose proof (for_chunks_calls n d (S i) rest t1 v1) as Hlater
    end.
    simpl in Hlater. lia.
  - destruct Hloop as [Hfst _]; [| discriminate Hfst].
    intros k Hk. apply Hsame; [apply list_elem_of_here | exact Hk].
  - destruct Hloop as [Hfst _]; [| exact Hfst].
    intros k Hk. apply Hsame; [apply list_elem_of_here | exact Hk].
Qed.

(** C8: when the recogniser answers the requests of a second run as it
    answered those of the first, request for request, and the input file
    is the same, the second run gives the same transcript.  Nothing else
    in the surroundings matters, and the answers may depend on the
    position of the request and on the audio alike. *)
Theorem rerun_gives_same_transcript audio_file n d w1 w2 :
  fs w1 !! audio_file = fs w2 !! audio_file ->
  (forall k chunk audio,
     fs w1 !! audio_file = Some audio ->
     chunk ∈ split_on_silence audio 500%Z (-40)%Z ->
     calls w1 + k
       < calls (snd (transcribe_audio split_on_silence remote audio_file n d w1)) ->
     remote (calls w1 + k) chunk = remote (calls w2 + k) chunk) ->
  fst (transcribe_audio split_on_silence remote audio_file n d w2)
  = fst (transcribe_audio split_on_silence remote audio_file n d w1).
Proof.
  intros Hfile. unfold transcribe_audio, bind, from_file.
  rewrite <- Hfile. destruct (fs w1 !! audio_file) as [audio|]; [| reflexivity].
  intros Hsame. apply for_chunks_replay.
  intros k chunk Hin Hk. by apply (Hsame k chunk audio).
Qed.

(** C2: when the input splits into exactly three chunks and the recogniser
    answers ["hello"] for the first, reports the second as not understood
    and answers ["world"] for the third, [transcribe_audio] returns exactly
    [" hello [Could not understand audio chunk]  world"]: a space before
    ["hello"], two spaces before ["world"]. *)
Theorem hello_unintelligible_world audio_file audio c1 c2 c3 n d w :
  fs w !! audio_file = Some audio ->
  split_on_silence audio 500%Z (-40)%Z = [c1; c2; c3] ->
  (0 < n)%Z ->
  remote (calls w) c1 = Ok "hello" ->
  remote (S (calls w)) c2 = Raised UnknownValueError ->
  remote (S (S (calls w))) c3 = Ok "world" ->
  fst (transcribe_audio split_on_silence remote audio_file n d w)
  = Ok " hello [Could not understand audio chunk]  world".
Proof.
  intros Hfile Hsplit Hn H1 H2 H3.
  unfold transcribe_audio, bind at 1, from_file. rewrite Hfile, Hsplit.
  rewrite for_chunks_cons, (process_chunk_recognized n d 0 c1 "hello") by done.
  rewrite for_chunks_cons.
  rewrite (process_chunk_unintelligible n d 1 c2) by done.
  rewrite for_chunks_cons, (process_chunk_recognized n d 2 c3 "world") by done.
  reflexivity.
Qed.

(** Without attempts a chunk is written to its scratch file and the file
    is removed, nothing else. *)
Lemma process_chunk_no_attempt n d i chunk t w :
  (n <= 0)%Z ->
  process_chunk remote n d i chunk t w =
  (Ok t,
   World (delete (temp_chunk_file i) (<[temp_chunk_file i := chunk]> (fs w))) (calls w)
         (trace w ++ [Export (temp_chunk_file i) chunk; Remove (temp_chunk_file i)])).
Proof.
  intros Hn. rewrite process_chunk_unfold, (range_nonpositive n Hn). simpl.
  by rewrite delete_insert_eq, <- !app_assoc.
Qed.

Lemma for_chunks_no_attempt n d i chunks t w :
  (n <= 0)%Z ->
  exists w',
    for_chunks remote n d i chunks t w = (Ok t, w')
    /\ calls w' = calls w
    /\ trace w' = trace w ++ scratch_events i chunks.
Proof.
  intros Hn. revert i w.
  induction chunks as [|chunk rest IH]; intros i w.
  - exists w. simpl. by rewrite app_nil_r.
  - rewrite for_chunks_cons, process_chunk_no_attempt by done.
    match goal with |- context [for_chunks remote n d (S i) rest t ?w1] =>
      destruct (IH (S i) w1) as (w' & Hrun & Hcalls & Htrace) end.
    exists w'. split; [exact Hrun |]. split; [exact Hcalls |].
    rewrite Htrace. simpl. by rewrite <- !app_assoc.
Qed.

Lemma for_chunks_no_attempt_before n d i chunks t w j chunk :
  (n <= 0)%Z ->
  chunks !! j = Some chunk ->
  exists wj, for_chunks remote n d i (take j chunks) t w = (Ok t, wj).
Proof.
  intros Hn. revert i w j.
  induction chunks as [|first rest IH]; intros i w j Hj;
    [by rewrite lookup_nil in Hj |].
  destruct j as [|j]; [by exists w |].
  rewrite firstn_cons, for_chunks_cons, process_chunk_no_attempt by done.
  by apply IH.
Qed.

Lemma attempts_in_scratch_events i chunks :
  attempts_in (scratch_events i chunks) = 0.
Proof.
  revert i. induction chunks as [|chunk rest IH]; intros i; [reflexivity |].
  exact (IH (S i)).
Qed.

(** The disk after a run over the chunks that returns. *)
Lemma for_chunks_disk n d i chunks t w t' w' :
  for_chunks remote n d i chunks t w = (Ok t', w') ->
  fs w' = foldr delete (fs w) (temp_chunk_file <$> seq i (length chunks)).
Proof.
  revert i t w. induction chunks as [|chunk rest IH]; intros i t w.
  - by intros [= _ <-].
  - rewrite for_chunks_cons, process_chunk_unfold.
    destruct (retry_loop remote d chunk (range n) t (exported i chunk w))
      as [[t1|e] w1]; [| discriminate].
    intros Hrest. rewrite (IH _ _ _ Hrest). simpl.
    apply foldr_delete_delete.
Qed.

(** C10: with [max_retries <= 0] no recognition request is sent and the
    transcript is the empty string; every chunk is still written to its
    scratch file, which is then removed, so that none of these files is on
    disk after the run; nothing rejects such a [max_retries]. *)
Theorem no_recognition_without_retries audio_file audio n d w :
  (n <= 0)%Z ->
  fs w !! audio_file = Some audio ->
  let chunks := split_on_silence audio 500%Z (-40)%Z in
  exists w',
    transcribe_audio split_on_silence remote audio_file n d w = (Ok "", w')
    /\ calls w' = calls w
    /\ trace w' = trace w ++ scratch_events 0 chunks
    /\ attempts_in (scratch_events 0 chunks) = 0
    /\ fs w' = foldr delete (fs w) (temp_chunk_file <$> seq 0 (length chunks))
    /\ (forall j chunk, chunks !! j = Some chunk ->
          exists wj,
            for_chunks remote n d 0 (take j chunks) "" w = (Ok "", wj)
            /\ process_chunk remote n d j chunk "" wj =
               (Ok "",
                World (delete (temp_chunk_file j)
                         (<[temp_chunk_file j := chunk]> (fs wj)))
                      (calls wj)
                      (trace wj ++ [Export (temp_chunk_file j) chunk;
                                    Remove (temp_chunk_file j)]))).
Proof.
  intros Hn Hfile chunks.
  destruct (for_chunks_no_attempt n d 0 chunks "" w Hn) as (w' & Hrun & Hcalls & Htrace).
  exists w'. unfold transcribe_audio, bind, from_file. rewrite Hfile.
  split; [exact Hrun |]. split; [exact Hcalls |]. split; [exact Htrace |].
  split; [apply attempts_in_scratch_events |].
  split; [by eapply for_chunks_disk |].
  intros j chunk Hj.
  destruct (for_chunks_no_attempt_before n d 0 chunks "" w j chunk Hn Hj) as [wj Hwj].
  exists wj. split; [exact Hwj |]. by apply process_chunk_no_attempt.
Qed.

End Properties.

(** ** The segmenter *)

(** C9: when the detector finds no silence gap, the segmenter returns
    exactly one chunk, the whole input. *)
Theorem no_gap_single_chunk detect_silence (audio : AudioSegment) :
  detect_silence audio 500%Z (-40)%Z = [] ->
  Segmenter.split_on_silence detect_silence audio 500%Z (-40)%Z = [audio].
Proof.
  intros Hgaps. unfold Segmenter.split_on_silence. rewrite Hgaps. simpl.
  unfold Segmenter.slice. simpl.
  rewrite Nat.sub_0_r, drop_0. by rewrite firstn_all.
Qed.

(** ** The runs of section 8, and the claims at concrete inputs *)

Example broken_pipe_run_log :
  trace (snd (transcribe_audio whole_stream broken_remote "temp_audio.wav" 3 5 disk0))
  = [Export "temp_chunk_0.wav" [3; -2; 7]%Z;
     Recognize [3; -2; 7]%Z;
     Stdout "Retry attempt 1 failed. Retrying in 5 seconds."; Sleep 5;
     Recognize [3; -2; 7]%Z;
     Stdout "Retry attempt 2 failed. Retrying in 5 seconds."; Sleep 5;
     Recognize [3; -2; 7]%Z;
     Stdout "Retry attempt 3 failed. Retrying in 5 seconds."; Sleep 5;
     Remove "temp_chunk_0.wav"].
Proof. vm_compute. reflexivity. Qed.

Lemma broken_pipe_sleeps_after_every_attempt_witness :
  (0 < 3)%Z /\ (0 < 5)%Z
  /\ (forall k, k < Z.to_nat 3 ->
        is_broken_pipe (broken_remote (calls disk0 + k) [3; -2; 7]%Z) = true)
  /\ fst (process_chunk broken_remote 3 5 0 [3; -2; 7]%Z "" disk0) = Ok ""
  /\ sleeps_in (retry_events 5 [3; -2; 7]%Z (range 3)) = 3
  /\ last (retry_events 5 [3; -2; 7]%Z (range 3)) = Some (Sleep 5).
Proof.
  assert (Hbp : forall k, k < Z.to_nat 3 ->
            is_broken_pipe (broken_remote (calls disk0 + k) [3; -2; 7]%Z) = true)
    by (intros k _; reflexivity).
  destruct (broken_pipe_sleeps_after_every_attempt broken_remote 3 5 0
              [3; -2; 7]%Z "" disk0 ltac:(lia) ltac:(lia) Hbp)
    as [Hwithin _].
  destruct (Hwithin ltac:(unfold sleep_limit; lia)) as (Hrun & _ & Hsleeps & Hlast).
  split; [lia |]. split; [lia |]. split; [exact Hbp |].
  split; [by rewrite Hrun |]. split; [exact Hsleeps | exact Hlast].
Defined.



Lemma unintelligible_chunk_single_attempt_witness :
  (0 < 3)%Z
  /\ deaf_remote (calls disk0) [3; -2; 7]%Z = Raised UnknownValueError
  /\ fst (process_chunk deaf_remote 3 5 0 [3; -2; 7]%Z "" disk0)
     = Ok " [Could not understand audio chunk] ".
Proof.
  split; [lia |]. split; [reflexivity |].
  destruct (unintelligible_chunk_single_attempt deaf_remote 3 5 0 [3; -2; 7]%Z "" disk0
              ltac:(lia) eq_refl) as [Hrun _].
  by rewrite Hrun.
Defined.

Lemma other_request_error_single_attempt_witness :
  (0 < 3)%Z
  /\ refusing_remote (calls disk0) [3; -2; 7]%Z
     = Raised (RequestError "recognition request failed: Forbidden")
  /\ contains "Broken pipe" "recognition request failed: Forbidden" = false
  /\ fst (process_chunk refusing_remote 3 5 0 [3; -2; 7]%Z "" disk0)
     = Ok " [Could not transcribe audio chunk: recognition request failed: Forbidden] ".
Proof.
  split; [lia |]. split; [reflexivity |]. split; [reflexivity |].
  destruct (other_request_error_single_attempt refusing_remote 3 5 0 [3; -2; 7]%Z
              "recognition request failed: Forbidden" "" disk0
              ltac:(lia) eq_refl eq_refl) as [Hrun _].
  by rewrite Hrun.
Defined.



(** C4, as stated, fails: one chunk, every attempt a broken pipe; the
    transcript is empty, and no single segment that starts with a space
    makes an empty transcript. *)
Lemma dropped_chunk_leaves_no_segment :
  fst (transcribe_audio whole_stream broken_remote "temp_audio.wav" 3 5 disk0) = Ok ""
  /\ ~ exists segments,
        length segments = length (whole_stream [3; -2; 7]%Z 500 (-40))
        /\ Forall (fun seg => space_prefixed seg = true) segments
        /\ "" = join segments.
Proof.
  split; [vm_compute; reflexivity |].
  intros (segments & Hlen & Hall & Hjoin).
  destruct segments as [|seg [|]]; simpl in Hlen; try discriminate Hlen.
  inversion Hall as [|? ? Hseg _]; subst.
  destruct seg; [discriminate Hseg | discriminate Hjoin].
Qed.

Lemma transcript_joins_chunk_segments_witness :
  for_chunks scenario_remote 3 5 0 [[3]%Z; [-2]%Z; [7]%Z] "" disk0
  = (Ok " hello [Could not understand audio chunk]  world",
     snd (for_chunks scenario_remote 3 5 0 [[3]%Z; [-2]%Z; [7]%Z] "" disk0))
  /\ exists segments,
       length segments = 3
       /\ " hello [Could not understand audio chunk]  world" = "" +:+ join segments
       /\ exists w1 segment,
            segments !! 1 = Some segment
            /\ for_chunks scenario_remote 3 5 0 [[3]%Z] "" disk0
               = (Ok ("" +:+ join (take 1 segments)), w1)
            /\ ((exists k, k < Z.to_nat 3
                    /\ is_broken_pipe (scenario_remote (calls w1 + k) [-2]%Z) = false) ->
                space_prefixed segment = true).
Proof.
  assert (Hrun : for_chunks scenario_remote 3 5 0 [[3]%Z; [-2]%Z; [7]%Z] "" disk0
                 = (Ok " hello [Could not understand audio chunk]  world",
                    snd (for_chunks scenario_remote 3 5 0 [[3]%Z; [-2]%Z; [7]%Z] "" disk0)))
    by (vm_compute; reflexivity).
  split; [exact Hrun |].
  destruct (transcript_joins_chunk_segments scenario_remote 3 5 0 _ "" disk0 _ _ Hrun)
    as (segments & Hlen & _ & Hjoin & _ & Heach).
  exists segments. split; [exact Hlen |]. split; [exact Hjoin |].
  destruct (Heach 1 [-2]%Z eq_refl) as (w1 & segment & Hsegment & Hbefore & _ & Hfull).
  by exists w1, segment.
Defined.

Lemma rerun_gives_same_transcript_witness :
  fs disk0 !! "temp_audio.wav"
  = fs (snd (transcribe_audio every_sample cyclic_remote "temp_audio.wav" 3 5 disk0))
      !! "temp_audio.wav"
  /\ (forall k chunk audio,
        fs disk0 !! "temp_audio.wav" = Some audio ->
        chunk ∈ every_sample audio 500%Z (-40)%Z ->
        calls disk0 + k
          < calls (snd (transcribe_audio every_sample cyclic_remote "temp_audio.wav" 3 5
                          disk0)) ->
        cyclic_remote (calls disk0 + k) chunk
        = cyclic_remote
            (calls (snd (transcribe_audio every_sample cyclic_remote "temp_audio.wav" 3 5
                           disk0)) + k) chunk)
  /\ fst (transcribe_audio every_sample cyclic_remote "temp_audio.wav" 3 5
            (snd (transcribe_audio every_sample cyclic_remote "temp_audio.wav" 3 5 disk0)))
     = Ok " hello [Could not understand audio chunk]  world".
Proof.
  assert (Hfile : fs disk0 !! "temp_audio.wav"
            = fs (snd (transcribe_audio every_sample cyclic_remote "temp_audio.wav" 3 5
                         disk0)) !! "temp_audio.wav")
    by (vm_compute; reflexivity).
  assert (Hcalls : calls (snd (transcribe_audio every_sample cyclic_remote
                                 "temp_audio.wav" 3 5 disk0)) = 3)
    by (vm_compute; reflexivity).
  assert (Hsame : forall k chunk audio,
            fs disk0 !! "temp_audio.wav" = Some audio ->
            chunk ∈ every_sample audio 500%Z (-40)%Z ->
            calls disk0 + k
              < calls (snd (transcribe_audio every_sample cyclic_remote "temp_audio.wav"
                              3 5 disk0)) ->
            cyclic_remote (calls disk0 + k) chunk
            = cyclic_remote
                (calls (snd (transcribe_audio every_sample cyclic_remote "temp_audio.wav"
                               3 5 disk0)) + k) chunk).
  { intros k chunk audio _ _ Hk. rewrite Hcalls in Hk |- *. simpl in Hk.
    destruct k as [|[|[|k]]]; [reflexivity | reflexivity | reflexivity | lia]. }
  split; [exact Hfile |]. split; [exact Hsame |].
  rewrite (rerun_gives_same_transcript every_sample cyclic_remote "temp_audio.wav" 3 5
             disk0 _ Hfile Hsame).
  vm_compute. reflexivity.
Defined.

Lemma hello_unintelligible_world_witness :
  fs disk0 !! "temp_audio.wav" = Some [3; -2; 7]%Z
  /\ every_sample [3; -2; 7]%Z 500 (-40) = [[3]%Z; [-2]%Z; [7]%Z]
  /\ (0 < 3)%Z
  /\ scenario_remote (calls disk0) [3]%Z = Ok "hello"
  /\ scenario_remote (S (calls disk0)) [-2]%Z = Raised UnknownValueError
  /\ scenario_remote (S (S (calls disk0))) [7]%Z = Ok "world"
  /\ fst (transcribe_audio every_sample scenario_remote "temp_audio.wav" 3 5 disk0)
     = Ok " hello [Could not understand audio chunk]  world".
Proof.
  assert (Hfile : fs disk0 !! "temp_audio.wav" = Some [3; -2; 7]%Z)
    by (vm_compute; reflexivity).
  split; [exact Hfile |]. split; [reflexivity |]. split; [lia |].
  split; [reflexivity |]. split; [reflexivity |]. split; [reflexivity |].
  apply (hello_unintelligible_world every_sample scenario_remote "temp_audio.wav"
           [3; -2; 7]%Z [3]%Z [-2]%Z [7]%Z 3 5 disk0);
    [exact Hfile | reflexivity | lia | reflexivity | reflexivity | reflexivity].
Defined.

Lemma no_recognition_without_retries_witness :
  (0 <= 0)%Z
  /\ fs disk0 !! "temp_audio.wav" = Some [3; -2; 7]%Z
  /\ exists w',
       transcribe_audio every_sample scenario_remote "temp_audio.wav" 0 5 disk0 = (Ok "", w')
       /\ calls w' = calls disk0
       /\ trace w' = trace disk0 ++ scratch_events 0 (every_sample [3; -2; 7]%Z 500 (-40))
       /\ fs w' = foldr delete (fs disk0) (temp_chunk_file <$> seq 0 3)
       /\ exists w1,
            for_chunks scenario_remote 0 5 0 [[3]%Z] "" disk0 = (Ok "", w1)
            /\ process_chunk scenario_remote 0 5 1 [-2]%Z "" w1 =
               (Ok "",
                World (delete (temp_chunk_file 1)
                         (<[temp_chunk_file 1 := [-2]%Z]> (fs w1)))
                      (calls w1)
                      (trace w1 ++ [Export (temp_chunk_file 1) [-2]%Z;
                                    Remove (temp_chunk_file 1)])).
Proof.
  assert (Hfile : fs disk0 !! "temp_audio.wav" = Some [3; -2; 7]%Z)
    by (vm_compute; reflexivity).
  split; [lia |]. split; [exact Hfile |].
  destruct (no_recognition_without_retries every_sample scenario_remote "temp_audio.wav"
              [3; -2; 7]%Z 0 5 disk0 ltac:(lia) Hfile)
    as (w' & Hrun & Hcalls & Htrace & _ & Hfs & Heach).
  exists w'. split; [exact Hrun |]. split; [exact Hcalls |]. split; [exact Htrace |].
  split; [exact Hfs |].
  exact (Heach 1 [-2]%Z eq_refl).
Defined.

Lemma no_gap_single_chunk_witness :
  no_silence [3; -2; 7]%Z 500%Z (-40)%Z = []
  /\ Segmenter.split_on_silence no_silence [3; -2; 7]%Z 500 (-40) = [[3; -2; 7]%Z].
Proof.
  split; [reflexivity |].
  apply (no_gap_single_chunk no_silence [3; -2; 7]%Z). reflexivity.
Defined.


(** * More of the transcriber *)

Section Retries.

Variable remote : nat -> AudioSegment -> result string.




(** X2: with a [retry_delay] that [time.sleep] refuses, the first broken
    pipe ends the run: the sleep raises [ValueError] for a negative length
    down to -9223372036 seconds, and [OverflowError] for a length beyond
    9223372036 seconds either way; the exception leaves the loop over the
    chunks at once, no later chunk is looked at, no sleep has taken place
    and the scratch file of the chunk is still on disk. *)
Theorem refused_delay_aborts n d i chunk rest t w :
  (d < 0 \/ sleep_limit < d)%Z ->
  (0 < n)%Z ->
  is_broken_pipe (remote (calls w) chunk) = true ->
  exists w',
    for_chunks remote n d i (chunk :: rest) t w
    = (Raised (if ((d <? - sleep_limit) || (sleep_limit <? d))%Z
               then OtherError "OverflowError"
               else ValueError "sleep length must be non-negative"), w')
    /\ trace w' = trace w ++ [Export (temp_chunk_file i) chunk; Recognize chunk;
                              Stdout (retry_message 0 d)]
    /\ fs w' !! temp_chunk_file i = Some chunk.
Proof.
  intros Hd Hn Hbp. rewrite for_chunks_cons.
  assert (Hsleep : sleep_error d
            = Some (if ((d <? - sleep_limit) || (sleep_limit <? d))%Z
                    then OtherError "OverflowError"
                    else ValueError "sleep length must be non-negative")).
  { unfold sleep_error.
    destruct ((d <? - sleep_limit) || (sleep_limit <? d))%Z eqn:Hout; [reflexivity |].
    apply orb_false_elim in Hout as [_ Hhigh]. apply Z.ltb_ge in Hhigh.
    replace (d <? 0)%Z with true; [reflexivity |].
    symmetry. apply Z.ltb_lt. lia. }
  rewrite (process_chunk_sleep_raises remote n d i chunk _ t w Hn Hbp Hsleep).
  eexists. split; [reflexivity |]. simpl.
  split; [reflexivity | apply lookup_insert_eq].
Qed.


(** X3: whatever the recogniser answers and however the run ends, a run
    over N chunks sends at most [N * max_retries] recognition requests. *)
Theorem requests_bounded n d i chunks t w :
  calls w <= calls (snd (for_chunks remote n d i chunks t w))
          <= calls w + length chunks * Z.to_nat n.
Proof.
  revert i t w. induction chunks as [|chunk rest IH]; intros i t w; [simpl; lia |].
  rewrite for_chunks_cons, process_chunk_unfold.
  pose proof (retry_loop_calls remote d chunk (range n) t (exported i chunk w)) as Hloop.
  rewrite range_length in Hloop. simpl in Hloop.
  destruct (retry_loop remote d chunk (range n) t (exported i chunk w)) as [[t1|e] w1];
    simpl in Hloop |- *; [| lia].
  match goal with |- context [for_chunks remote n d (S i) rest t1 ?w2] =>
    specialize (IH (S i) t1 w2) end.
  simpl in IH. lia.
Qed.

(** X4: after a run over the chunks that returns, the disk is the disk
    before the run without the files named [temp_chunk_i.wav] for the
    indices of the run: each of them is absent, also one that was there
    before the run, and every other file is as it was. *)
Theorem disk_after_run n d i chunks t w t' w' (path : string) :
  for_chunks remote n d i chunks t w = (Ok t', w') ->
  fs w' = foldr delete (fs w) (temp_chunk_file <$> seq i (length chunks))
  /\ fs w' !! path
     = if bool_decide (path ∈ temp_chunk_file <$> seq i (length chunks))
       then None else fs w !! path.
Proof.
  intros Hrun.
  assert (Hfs : fs w' = foldr delete (fs w) (temp_chunk_file <$> seq i (length chunks))).
  { revert i t w Hrun. induction chunks as [|chunk rest IH]; intros i t w.
    - by intros [= _ <-].
    - rewrite for_chunks_cons, process_chunk_unfold.
      destruct (retry_loop remote d chunk (range n) t (exported i chunk w))
        as [[t1|e] w1]; [| discriminate].
      intros Hrest. rewrite (IH _ _ _ Hrest). simpl.
      apply foldr_delete_delete. }
  split; [exact Hfs |]. rewrite Hfs. apply lookup_foldr_delete.
Qed.

End Retries.

(** * Video ids *)

Lemma prefix_empty (s : string) : String.prefix "" s = true.
Proof. by destruct s. Qed.

Lemma contains_tail needle c s :
  contains needle (String c s) = false -> contains needle s = false.
Proof.
  change (contains needle (String c s))
    with (if String.prefix needle (String c s) then true else contains needle s).
  by destruct (String.prefix needle (String c s)).
Qed.

Lemma contains_v_equals_head c1 c2 s :
  contains "v=" (String c1 (String c2 s)) = false ->
  Ascii.eqb c2 "=" && Ascii.eqb c1 "v" = false.
Proof.
  simpl. destruct (ascii_dec "v" c1) as [<- | Hv].
  - destruct (ascii_dec "=" c2) as [<- | He].
    + by rewrite prefix_empty.
    + intros _. apply andb_false_intro1. apply Ascii.eqb_neq. congruence.
  - intros _. apply andb_false_intro2. apply Ascii.eqb_neq. congruence.
Qed.

Lemma unwind_append before s : unwind before s = unwind before "" +:+ s.
Proof.
  revert s. induction before as [|c before IH]; intros s; [reflexivity |].
  simpl. rewrite (IH (String c s)), (IH (String c "")).
  by rewrite append_assoc.
Qed.

Lemma take_drop_while p s : s = take_while p s +:+ drop_while p s.
Proof.
  induction s as [|c s IH]; [reflexivity |].
  simpl. destruct (p c); [| reflexivity].
  exact (f_equal (String c) IH).
Qed.

Lemma take_while_forall p s : string_forall p (take_while p s) = true.
Proof.
  induction s as [|c s IH]; [reflexivity |].
  simpl. destruct (p c) eqn:Hc; [| reflexivity]. simpl. by rewrite Hc, IH.
Qed.

Lemma drop_while_at_id_end s : at_id_end (drop_while id_char s) = true.
Proof.
  induction s as [|c s IH]; [reflexivity |].
  simpl. destruct (id_char c) eqn:Hc; [exact IH |]. simpl. by rewrite Hc.
Qed.

Lemma take_while_id id rest :
  string_forall id_char id = true ->
  at_id_end rest = true ->
  take_while id_char (id +:+ rest) = id.
Proof.
  intros Hid Hrest. induction id as [|c id IH].
  - destruct rest as [|c rest]; [reflexivity |].
    simpl in Hrest |- *. by destruct (id_char c).
  - simpl in Hid |- *. apply andb_prop in Hid as [Hc Hid].
    rewrite Hc. by rewrite IH.
Qed.

Lemma eqb_empty (s : string) : String.eqb s "" = false <-> s <> "".
Proof. destruct s; simpl; split; done. Qed.

Lemma re_search_eq before s :
  re_search before s =
  if after_v_equals before && negb (String.eqb (take_while id_char s) "")
  then Some (take_while id_char s)
  else match s with
       | EmptyString => None
       | String c rest => re_search (String c before) rest
       end.
Proof. by destruct s. Qed.

(** The search passes over a stretch in which no ["v="] ends. *)
Lemma re_search_passes before passed s :
  after_v_equals before = false ->
  contains "v=" (with_last before passed) = false ->
  re_search before (passed +:+ s) = re_search (unwind passed before) s
  /\ after_v_equals (unwind passed before) = false.
Proof.
  revert before. induction passed as [|c passed IH]; intros before Hbefore Hfree;
    [by split |].
  assert (Hnext : after_v_equals (String c before) = false).
  { destruct before as [|b before]; [reflexivity |].
    cbn [with_last] in Hfree. cbn [after_v_equals].
    by apply contains_v_equals_head in Hfree. }
  assert (Hfree' : contains "v=" (with_last (String c before) passed) = false).
  { destruct before as [|b before]; [exact Hfree |].
    cbn [with_last] in Hfree |- *. by apply contains_tail in Hfree. }
  destruct (IH (String c before) Hnext Hfree') as [Hsearch Hlast].
  split; [| exact Hlast].
  change ((String c passed) +:+ s) with (String c (passed +:+ s)).
  rewrite re_search_eq, Hbefore. exact Hsearch.
Qed.

Lemma re_search_sound before s id :
  re_search before s = Some id ->
  exists url_start rest,
    unwind before s = url_start +:+ "v=" +:+ id +:+ rest
    /\ id <> ""
    /\ string_forall id_char id = true
    /\ at_id_end rest = true.
Proof.
  revert before. induction s as [|c s IH]; intros before.
  - rewrite re_search_eq. cbn [take_while String.eqb negb].
    rewrite andb_false_r. discriminate.
  - rewrite re_search_eq.
    destruct (after_v_equals before
              && negb (String.eqb (take_while id_char (String c s)) "")) eqn:Hhere.
    + intros Hid.
      assert (Hid' : id = take_while id_char (String c s)) by congruence.
      rewrite Hid'. clear Hid Hid'.
      apply andb_prop in Hhere as [Hbefore Hfound].
      destruct before as [|c1 [|c2 before]]; try discriminate Hbefore.
      simpl in Hbefore. apply andb_prop in Hbefore as [->%Ascii.eqb_eq ->%Ascii.eqb_eq].
      exists (unwind before ""), (drop_while id_char (String c s)).
      split; [| split; [| split]].
      * rewrite <- take_drop_while. cbn [unwind].
        by rewrite unwind_append.
      * apply eqb_empty. by apply negb_true_iff.
      * apply take_while_forall.
      * apply drop_while_at_id_end.
    + intros Hlater. exact (IH (String c before) Hlater).
Qed.

(** X6: an id that [extract_video_id] returns is never empty, holds no
    ["&"] and no white space, stands in the URL right after a ["v="], and
    stops at the end of the URL or at the first ["&"] or white space. *)
Theorem extract_video_id_sound youtube_url id :
  extract_video_id youtube_url = Some id ->
  exists url_start rest,
    youtube_url = url_start +:+ "v=" +:+ id +:+ rest
    /\ id <> ""
    /\ string_forall id_char id = true
    /\ at_id_end rest = true.
Proof. exact (re_search_sound "" youtube_url id). Qed.

(** X7: the id after the first ["v="] of a URL is found: when nothing
    before it contains ["v="], the id is not empty, has no ["&"] and no white
    space, and is followed by the end of the URL, a ["&"] or white space,
    [extract_video_id] returns exactly that id. *)
Theorem extract_video_id_finds url_start id rest :
  contains "v=" url_start = false ->
  id <> "" ->
  string_forall id_char id = true ->
  at_id_end rest = true ->
  extract_video_id (url_start +:+ "v=" +:+ id +:+ rest) = Some id.
Proof.
  intros Hstart Hid Hchars Hrest. unfold extract_video_id.
  destruct (re_search_passes "" url_start ("v=" +:+ id +:+ rest) eq_refl Hstart)
    as [-> Hlast].
  change ("v=" +:+ id +:+ rest) with (String "v" (String "=" (id +:+ rest))).
  rewrite re_search_eq, Hlast. cbn [andb].
  rewrite re_search_eq.
  replace (after_v_equals (String "v" (unwind url_start ""))) with false
    by (by destruct (unwind url_start "")).
  cbn [andb]. rewrite re_search_eq.
  replace (after_v_equals (String "=" (String "v" (unwind url_start "")))) with true
    by reflexivity.
  rewrite take_while_id by done.
  apply eqb_empty in Hid. by rewrite Hid.
Qed.

(** X8: a URL in which ["v="] does not occur, a [youtu.be] short link for
    one, has no video id. *)
Theorem extract_video_id_none youtube_url :
  contains "v=" youtube_url = false ->
  extract_video_id youtube_url = None.
Proof.
  intros Hfree. unfold extract_video_id.
  destruct (re_search_passes "" youtube_url "" eq_refl Hfree) as [Hsearch Hlast].
  rewrite append_nil_r in Hsearch. rewrite Hsearch.
  by rewrite re_search_eq, Hlast.
Qed.

(** * Transcripts of videos, and the form *)

Lemma first_transcript_skips failing rest :
  Forall (fun transcript => usable transcript = false) failing ->
  first_transcript (failing ++ rest) = first_transcript rest.
Proof.
  induction 1 as [|transcript failing Hbad _ IH]; [reflexivity |].
  rewrite <- app_comm_cons. cbn [first_transcript].
  destruct transcript as [transcript_data | message]; [| exact IH].
  cbn [usable] in Hbad.
  destruct (item_texts transcript_data) as [texts|]; [| exact IH].
  apply bool_decide_eq_false in Hbad. by destruct Hbad.
Qed.

Section Form.

Variable split_on_silence : AudioSegment -> Z -> Z -> list AudioSegment.
Variable remote : nat -> AudioSegment -> result string.
Variable list_transcripts : string -> listing.
Variable generate_content : string -> outcome string.
Variable Document : option (list Z) -> outcome (list string).
Variable exception_text : exn -> string.

(** X9: [get_youtube_transcript] returns the texts of the first transcript
    of the video that can be fetched and whose items all have a text,
    joined by single spaces; the transcripts before it that fail are
    skipped without a trace. *)
Theorem first_usable_transcript video_id failing transcript_data texts rest :
  list_transcripts video_id = Listed (failing ++ Returned transcript_data :: rest) ->
  Forall (fun transcript => usable transcript = false) failing ->
  item_texts transcript_data = Some texts ->
  get_youtube_transcript list_transcripts video_id = str_join " " texts.
Proof.
  intros Hlist Hfailing Htexts. unfold get_youtube_transcript.
  rewrite Hlist, first_transcript_skips by done.
  cbn [first_transcript]. by rewrite Htexts.
Qed.

(** X10: when no transcript of the video can be used, because the list is
    empty or every fetch fails, the function returns the sentence
    ["No transcript available in any language."] as if it were the
    transcript. *)
Theorem no_usable_transcript video_id transcript_list :
  list_transcripts video_id = Listed transcript_list ->
  Forall (fun transcript => usable transcript = false) transcript_list ->
  get_youtube_transcript list_transcripts video_id = "No transcript available in any language.".
Proof.
  intros Hlist Hnone. unfold get_youtube_transcript. rewrite Hlist.
  rewrite <- (app_nil_r transcript_list), first_transcript_skips by done.
  reflexivity.
Qed.

Lemma summarize_text_server text s :
  snd (summarize_text generate_content text s)
  = Server (surroundings s) (prompts s ++ [summary_prompt text]).
Proof.
  unfold summarize_text. by destruct (generate_content (summary_prompt text)).
Qed.

(** The four conditions of the handler, without a URL. *)
Lemma summarize_without_url youtube_url text_input audio_file docx_file s :
  truthy youtube_url = false ->
  summarize split_on_silence remote list_transcripts generate_content
    Document exception_text youtube_url text_input audio_file docx_file s =
  if truthy text_input || uploaded audio_file || uploaded docx_file
  then (Response (Some (fst (summarize_text generate_content text_input s))) None,
        snd (summarize_text generate_content text_input s))
  else (Response None (Some "Error no input provided !"), s).
Proof.
  intros Hurl. unfold summarize. rewrite Hurl. cbn [negb].
  rewrite andb_true_r.
  destruct (truthy text_input), (uploaded audio_file), (uploaded docx_file);
    cbn [orb andb]; try reflexivity;
    by destruct (summarize_text generate_content text_input s).
Qed.

(** X11: the branches of the handler that transcribe an audio upload and
    that read a document upload are never taken.  Without a URL, as soon
    as there is a text, an audio upload or a document upload, the handler
    sends exactly one prompt to the model, made of [text_input] alone (the
    word ["None"] when there is no text), and shows the answer as the
    summary; with none of the three it reports ["Error no input provided !"]. *)
Theorem uploads_are_never_read youtube_url text_input audio_file docx_file s :
  truthy youtube_url = false ->
  summarize split_on_silence remote list_transcripts generate_content
    Document exception_text youtube_url text_input audio_file docx_file s =
  if truthy text_input || uploaded audio_file || uploaded docx_file
  then (Response (Some (fst (summarize_text generate_content text_input s))) None,
        Server (surroundings s) (prompts s ++ [summary_prompt text_input]))
  else (Response None (Some "Error no input provided !"), s).
Proof.
  intros Hurl. rewrite summarize_without_url by done.
  by rewrite summarize_text_server.
Qed.

(** X12: whatever the form holds, the handler leaves the disk, the
    recogniser and the log of [transcribe_audio] as they were: it writes no
    file and has no audio recognised. *)
Theorem summarize_leaves_surroundings youtube_url text_input audio_file docx_file s :
  surroundings (snd (summarize split_on_silence remote list_transcripts generate_content
    Document exception_text youtube_url text_input audio_file docx_file s))
  = surroundings s.
Proof.
  destruct (truthy youtube_url) eqn:Hurl.
  - unfold summarize. rewrite Hurl.
    destruct (extract_video_id (format_value youtube_url)) as [video_id|]; [| reflexivity].
    cbv zeta.
    set (transcript := get_youtube_transcript list_transcripts video_id).
    destruct (negb (contains "Error" transcript)); [| reflexivity].
    pose proof (summarize_text_server (Some transcript) s) as Hs.
    destruct (summarize_text generate_content (Some transcript) s) as [text s'].
    simpl in Hs |- *. by rewrite Hs.
  - rewrite summarize_without_url by done.
    destruct (truthy text_input || uploaded audio_file || uploaded docx_file);
      [| reflexivity].
    cbn [snd]. by rewrite summarize_text_server.
Qed.

(** X13: a URL takes precedence and is not checked to be a video's: when
    the URL field is filled in and ["v="] occurs nowhere in it, the answer
    is the error ["Invalid YouTube URL"], no prompt is sent, and a text or
    an upload sent along is ignored. *)
Theorem url_without_id_is_invalid youtube_url text_input audio_file docx_file s :
  truthy youtube_url = true ->
  contains "v=" (format_value youtube_url) = false ->
  summarize split_on_silence remote list_transcripts generate_content
    Document exception_text youtube_url text_input audio_file docx_file s
  = (Response None (Some "Invalid YouTube URL"), s).
Proof.
  intros Hurl Hfree. unfold summarize.
  by rewrite Hurl, extract_video_id_none.
Qed.

(** X14: a transcript in which the word ["Error"] occurs anywhere is not
    summarised: the handler shows the whole transcript as the error, with
    no summary, and sends no prompt. *)
Theorem transcript_with_error_is_shown youtube_url video_id text_input audio_file docx_file s :
  truthy youtube_url = true ->
  extract_video_id (format_value youtube_url) = Some video_id ->
  contains "Error" (get_youtube_transcript list_transcripts video_id) = true ->
  summarize split_on_silence remote list_transcripts generate_content
    Document exception_text youtube_url text_input audio_file docx_file s
  = (Response None (Some (get_youtube_transcript list_transcripts video_id)), s).
Proof.
  intros Hurl Hid Herror. unfold summarize.
  by rewrite Hurl, Hid, Herror.
Qed.

Lemma listing_failure_mentions_error message :
  contains "Error" ("Error retrieving transcript: " +:+ message) = true.
Proof. reflexivity. Qed.

(** X15: when the list of transcripts cannot be retrieved, the handler
    shows ["Error retrieving transcript: "] followed by the message of the
    exception as the error, and sends no prompt. *)
Theorem listing_failure_is_shown youtube_url video_id message text_input audio_file docx_file s :
  truthy youtube_url = true ->
  extract_video_id (format_value youtube_url) = Some video_id ->
  list_transcripts video_id = ListingFailed message ->
  summarize split_on_silence remote list_transcripts generate_content
    Document exception_text youtube_url text_input audio_file docx_file s
  = (Response None (Some ("Error retrieving transcript: " +:+ message)), s).
Proof.
  intros Hurl Hid Hlist. unfold summarize.
  rewrite Hurl, Hid. cbv zeta. unfold get_youtube_transcript.
  rewrite Hlist. by rewrite listing_failure_mentions_error.
Qed.


(** X17: a failure of the model is not reported as an error: for a text
    alone, the handler shows ["Error summarizing text: "] followed by the
    message of the exception as the summary, and no error. *)
Theorem model_failure_is_the_summary text_input audio_file docx_file message s :
  truthy text_input = true ->
  generate_content (summary_prompt text_input) = Failed message ->
  fst (summarize split_on_silence remote list_transcripts generate_content
    Document exception_text None text_input audio_file docx_file s)
  = Response (Some ("Error summarizing text: " +:+ message)) None.
Proof.
  intros Htext Hfail. rewrite summarize_without_url by done.
  rewrite Htext. cbn [orb fst]. unfold summarize_text. by rewrite Hfail.
Qed.

End Form.

(** * The properties above at concrete inputs *)


Lemma refused_delay_aborts_witness :
  (-10000000000 < 0 \/ sleep_limit < -10000000000)%Z /\ (0 < 3)%Z
  /\ is_broken_pipe (broken_remote (calls disk0) [3]%Z) = true
  /\ exists w',
       for_chunks broken_remote 3 (-10000000000) 0 [[3]%Z; [7]%Z] "" disk0
       = (Raised (OtherError "OverflowError"), w')
       /\ trace w' = trace disk0 ++ [Export (temp_chunk_file 0) [3]%Z; Recognize [3]%Z;
                                     Stdout (retry_message 0 (-10000000000))]
       /\ fs w' !! temp_chunk_file 0 = Some [3]%Z.
Proof.
  assert (Hd : (-10000000000 < 0 \/ sleep_limit < -10000000000)%Z) by (left; lia).
  split; [exact Hd |]. split; [lia |]. split; [reflexivity |].
  exact (refused_delay_aborts broken_remote 3 (-10000000000) 0 [3]%Z [[7]%Z] "" disk0
           Hd ltac:(lia) eq_refl).
Defined.


Lemma disk_after_run_witness :
  for_chunks scenario_remote 3 5 0 [[3]%Z; [-2]%Z; [7]%Z] "" disk0
  = (Ok " hello [Could not understand audio chunk]  world",
     snd (for_chunks scenario_remote 3 5 0 [[3]%Z; [-2]%Z; [7]%Z] "" disk0))
  /\ fs (snd (for_chunks scenario_remote 3 5 0 [[3]%Z; [-2]%Z; [7]%Z] "" disk0))
       !! "temp_audio.wav"
     = if bool_decide ("temp_audio.wav" ∈ temp_chunk_file <$> seq 0 3)
       then None else fs disk0 !! "temp_audio.wav".
Proof.
  assert (Hrun : for_chunks scenario_remote 3 5 0 [[3]%Z; [-2]%Z; [7]%Z] "" disk0
                 = (Ok " hello [Could not understand audio chunk]  world",
                    snd (for_chunks scenario_remote 3 5 0 [[3]%Z; [-2]%Z; [7]%Z] "" disk0)))
    by (vm_compute; reflexivity).
  split; [exact Hrun |].
  exact (proj2 (disk_after_run scenario_remote 3 5 0 _ "" disk0 _ _ "temp_audio.wav" Hrun)).
Defined.

Lemma extract_video_id_sound_witness :
  extract_video_id "https://www.youtube.com/watch?v=dQw4w9WgXcQ&t=42s" = Some "dQw4w9WgXcQ"
  /\ exists url_start rest,
       "https://www.youtube.com/watch?v=dQw4w9WgXcQ&t=42s"
       = url_start +:+ "v=" +:+ "dQw4w9WgXcQ" +:+ rest
       /\ "dQw4w9WgXcQ" <> ""
       /\ string_forall id_char "dQw4w9WgXcQ" = true
       /\ at_id_end rest = true.
Proof.
  split; [reflexivity |].
  apply (extract_video_id_sound "https://www.youtube.com/watch?v=dQw4w9WgXcQ&t=42s").
  reflexivity.
Defined.

Lemma extract_video_id_finds_witness :
  contains "v=" "https://www.youtube.com/watch?" = false
  /\ "dQw4w9WgXcQ" <> ""
  /\ string_forall id_char "dQw4w9WgXcQ" = true
  /\ at_id_end "&t=42s" = true
  /\ extract_video_id ("https://www.youtube.com/watch?" +:+ "v=" +:+ "dQw4w9WgXcQ" +:+ "&t=42s")
     = Some "dQw4w9WgXcQ".
Proof.
  split; [reflexivity |]. split; [discriminate |].
  split; [reflexivity |]. split; [reflexivity |].
  apply (extract_video_id_finds "https://www.youtube.com/watch?" "dQw4w9WgXcQ" "&t=42s");
    [reflexivity | discriminate | reflexivity | reflexivity].
Defined.

Lemma extract_video_id_none_witness :
  contains "v=" "https://youtu.be/dQw4w9WgXcQ" = false
  /\ extract_video_id "https://youtu.be/dQw4w9WgXcQ" = None.
Proof.
  split; [reflexivity |].
  apply (extract_video_id_none "https://youtu.be/dQw4w9WgXcQ"). reflexivity.
Defined.

Lemma first_usable_transcript_witness :
  two_transcripts "dQw4w9WgXcQ"
  = Listed ([Failed "no element found"]
              ++ Returned [Some "never gonna"; Some "give you up"] :: [])
  /\ Forall (fun transcript => usable transcript = false)
       [Failed (A:=list (option string)) "no element found"]
  /\ item_texts [Some "never gonna"; Some "give you up"]
     = Some ["never gonna"; "give you up"]
  /\ get_youtube_transcript two_transcripts "dQw4w9WgXcQ" = "never gonna give you up".
Proof.
  assert (Hfailing : Forall (fun transcript => usable transcript = false)
                            [Failed (A:=list (option string)) "no element found"])
    by (repeat constructor).
  split; [reflexivity |]. split; [exact Hfailing |]. split; [reflexivity |].
  exact (first_usable_transcript two_transcripts "dQw4w9WgXcQ"
           [Failed "no element found"] [Some "never gonna"; Some "give you up"]
           ["never gonna"; "give you up"] [] eq_refl Hfailing eq_refl).
Defined.

Lemma no_usable_transcript_witness :
  unfetchable_video "dQw4w9WgXcQ"
  = Listed [Failed "no element found"; Returned [Some "never gonna"; None]]
  /\ Forall (fun transcript => usable transcript = false)
       [Failed "no element found"; Returned [Some "never gonna"; None]]
  /\ get_youtube_transcript unfetchable_video "dQw4w9WgXcQ"
     = "No transcript available in any language.".
Proof.
  assert (Hnone : Forall (fun transcript => usable transcript = false)
                         [Failed "no element found"; Returned [Some "never gonna"; None]])
    by (repeat constructor).
  split; [reflexivity |]. split; [exact Hnone |].
  exact (no_usable_transcript unfetchable_video "dQw4w9WgXcQ" _ eq_refl Hnone).
Defined.

Lemma uploads_are_never_read_witness :
  truthy None = false
  /\ summarize whole_stream scenario_remote two_transcripts echo_model no_document
       sample_exception_text None None (Some [3; -2; 7]%Z) None server0
     = (Response (Some "- a point") None,
        Server disk0 [summary_prompt None]).
Proof.
  split; [reflexivity |].
  exact (uploads_are_never_read whole_stream scenario_remote two_transcripts echo_model
           no_document sample_exception_text None None (Some [3; -2; 7]%Z) None server0
           eq_refl).
Defined.

Lemma url_without_id_is_invalid_witness :
  truthy (Some "https://youtu.be/dQw4w9WgXcQ") = true
  /\ contains "v=" (format_value (Some "https://youtu.be/dQw4w9WgXcQ")) = false
  /\ summarize whole_stream scenario_remote two_transcripts echo_model no_document
       sample_exception_text (Some "https://youtu.be/dQw4w9WgXcQ") (Some "a text")
       None None server0
     = (Response None (Some "Invalid YouTube URL"), server0).
Proof.
  split; [reflexivity |]. split; [reflexivity |].
  apply url_without_id_is_invalid; reflexivity.
Defined.

Lemma transcript_with_error_is_shown_witness :
  truthy (Some "https://www.youtube.com/watch?v=dQw4w9WgXcQ") = true
  /\ extract_video_id (format_value (Some "https://www.youtube.com/watch?v=dQw4w9WgXcQ"))
     = Some "dQw4w9WgXcQ"
  /\ contains "Error" (get_youtube_transcript error_talk "dQw4w9WgXcQ") = true
  /\ summarize whole_stream scenario_remote error_talk echo_model no_document
       sample_exception_text (Some "https://www.youtube.com/watch?v=dQw4w9WgXcQ") None
       None None server0
     = (Response None (Some "Error handling in Python"), server0).
Proof.
  split; [reflexivity |]. split; [reflexivity |]. split; [reflexivity |].
  exact (transcript_with_error_is_shown whole_stream scenario_remote error_talk echo_model
           no_document sample_exception_text
           (Some "https://www.youtube.com/watch?v=dQw4w9WgXcQ") "dQw4w9WgXcQ"
           None None None server0 eq_refl eq_refl eq_refl).
Defined.

Lemma listing_failure_is_shown_witness :
  truthy (Some "https://www.youtube.com/watch?v=dQw4w9WgXcQ") = true
  /\ extract_video_id (format_value (Some "https://www.youtube.com/watch?v=dQw4w9WgXcQ"))
     = Some "dQw4w9WgXcQ"
  /\ unreachable_video "dQw4w9WgXcQ" = ListingFailed "Could not retrieve a transcript"
  /\ summarize whole_stream scenario_remote unreachable_video echo_model no_document
       sample_exception_text (Some "https://www.youtube.com/watch?v=dQw4w9WgXcQ") None
       None None server0
     = (Response None
          (Some ("Error retrieving transcript: " +:+ "Could not retrieve a transcript")),
        server0).
Proof.
  split; [reflexivity |]. split; [reflexivity |]. split; [reflexivity |].
  exact (listing_failure_is_shown whole_stream scenario_remote unreachable_video echo_model
           no_document sample_exception_text
           (Some "https://www.youtube.com/watch?v=dQw4w9WgXcQ") "dQw4w9WgXcQ"
           "Could not retrieve a transcript" None None None server0
           eq_refl eq_refl eq_refl).
Defined.


Lemma model_failure_is_the_summary_witness :
  truthy (Some "a text") = true
  /\ spent_model (summary_prompt (Some "a text")) = Failed "429 quota exceeded"
  /\ fst (summarize whole_stream scenario_remote two_transcripts spent_model no_document
            sample_exception_text None (Some "a text") None None server0)
     = Response (Some ("Error summarizing text: " +:+ "429 quota exceeded")) None.
Proof.
  split; [reflexivity |]. split; [reflexivity |].
  exact (model_failure_is_the_summary whole_stream scenario_remote two_transcripts
           spent_model no_document sample_exception_text (Some "a text") None None
           "429 quota exceeded" server0 eq_refl eq_refl).
Defined.
